(** * Path reuse decider (modules/planning/tasks/deciders/path_reuse_decider)

    A shallow embedding of [PathReuseDecider]: the reuse gate [Process], the
    collision checker [IsCollisionFree], the path trimmer [TrimHistoryPath]
    and the blocking-obstacle test [IsIgnoredBlockingObstacle], followed by
    the properties of the design document that concern them.

    Conventions of the embedding.
    - A C++ [double] is a rational number ([Q]); comparisons are the boolean
      tests [Qltb] (for [<]) and [Qgtb] (for [>]), and arithmetic is exact.
      The statements proved on this embedding depend on comparisons and on
      the verdicts of the code's own tests, not on how a difference or a
      product rounds.
    - Where a verdict at a boundary depends on rounding (the obstacle
      filter and the scan of [IsCollisionFree], the distance buffer of
      [IsIgnoredBlockingObstacle]), the functions are embedded a second
      time over IEEE binary64 floats, in the module [Binary64], and the
      properties that concern those verdicts are proved there.
    - A C++ [int] is an integer in [Z]; [++] on the two static counters is
      written with the two's complement wrap-around of a 32-bit [int].
    - An access outside a [std::vector] ([operator[]], [back()] on an empty
      vector) is undefined behaviour; the embedding makes it the explicit
      outcome [OutOfRange] of the [Result] type.
    - The collaborators that live outside this file of the repository
      (reference line projection, vehicle bounding box, polygon test, frame
      history, vehicle state) are fields of the record [Cycle]: what one
      planning cycle lets the decider read. *)

From Stdlib Require Import QArith ZArith List String Bool Lia Qminmax Sorted.
From Stdlib Require Import Permutation Lqa.
From Stdlib Require Import PrimFloat.
Import ListNotations.

Local Open Scope Q_scope.

(* ------------------------------------------------------------------ *)
(** ** Numbers *)

(** [a < b] on doubles. *)
Definition Qltb (a b : Q) : bool :=
  match a ?= b with
  | Lt => true
  | _ => false
  end.

(** [a > b] on doubles. *)
Definition Qgtb (a b : Q) : bool := Qltb b a.

(** [std::max(a, b)]: [(a < b) ? b : a]. *)
Definition std_max (a b : Q) : Q := if Qltb a b then b else a.

Definition INT_MAX : Z := 2147483647.
Definition INT_MIN : Z := -2147483648.

(** The value of an [int] expression after two's complement wrap-around. *)
Definition wrap_int (z : Z) : Z :=
  ((z - INT_MIN) mod 4294967296 + INT_MIN)%Z.

(** [++counter] on an [int]. *)
Definition incr_int (z : Z) : Z := wrap_int (z + 1).

(* ------------------------------------------------------------------ *)
(** ** Outcomes: a value, or an access outside a vector *)

Inductive Result (A : Type) : Type :=
| Ok (a : A)
| OutOfRange.

Arguments Ok {A} a.
Arguments OutOfRange {A}.

Definition bind {A B : Type} (r : Result A) (k : A -> Result B) : Result B :=
  match r with
  | Ok a => k a
  | OutOfRange => OutOfRange
  end.

Notation "x <- r ;; k" := (bind r (fun x => k))
  (at level 61, r at next level, right associativity).
Notation "' pat <- r ;; k" := (bind r (fun x => match x with pat => k end))
  (at level 61, pat pattern, r at next level, right associativity).

(* ------------------------------------------------------------------ *)
(** ** Data model *)

Record Vec2d : Type := MkVec2d { vx : Q; vy : Q }.

Record SLPoint : Type := MkSLPoint { sl_s : Q; sl_l : Q }.

(** A default-constructed [common::SLPoint]. *)
Definition SLPoint_default : SLPoint := MkSLPoint 0 0.

Record SLBoundary : Type := MkSLBoundary {
  start_s : Q;
  end_s : Q;
  start_l : Q;
  end_l : Q
}.

Record Obstacle : Type := MkObstacle {
  Id : string;
  IsStatic : bool;
  IsVirtual : bool;
  PerceptionSLBoundary : SLBoundary
}.

Record PathPoint : Type := MkPathPoint {
  x : Q;
  y : Q;
  theta : Q;
  kappa : Q;
  s : Q
}.

Definition set_s (p : PathPoint) (new_s : Q) : PathPoint :=
  MkPathPoint (x p) (y p) (theta p) (kappa p) new_s.

Definition DiscretizedPath : Type := list PathPoint.

(** [Polygon2d]: the vertices it was built from. *)
Definition Polygon2d : Type := list Vec2d.

(** [ReferenceLine::XYToSL(xy, &sl)] called on a freshly constructed [sl]:
    the flag it returns, and the content of [sl] after the call. *)
Record ReferenceLine : Type := MkReferenceLine {
  XYToSL : Vec2d -> bool * SLPoint
}.

Record VehicleState : Type := MkVehicleState {
  vehicle_x : Q;
  vehicle_y : Q;
  linear_velocity : Q
}.

(** [planning_status().path_decider()], written by another stage. *)
Record PathDeciderStatus : Type := MkPathDeciderStatus {
  front_static_obstacle_cycle_counter : Z;
  front_static_obstacle_id : string
}.

(** What one planning cycle lets the decider read. *)
Record Cycle : Type := MkCycle {
  (** [reference_line_info->reference_line()] *)
  reference_line : ReferenceLine;
  (** [reference_line_info->path_decision()->obstacles().Items()] *)
  obstacles : list Obstacle;
  (** [VehicleStateProvider::Instance()] *)
  vehicle_state : VehicleState;
  (** [FrameHistory::Instance()->Latest()]: [None] is the null frame,
      [Some path] a frame whose [current_frame_planned_path()] is [path]. *)
  history_frame : option DiscretizedPath;
  path_decider : PathDeciderStatus;
  (** [VehicleConfigHelper::Instance()->GetBoundingBox(p).GetAllCorners()] *)
  GetAllCorners : PathPoint -> list Vec2d;
  (** [Polygon2d::IsPointIn] *)
  IsPointIn : Polygon2d -> Vec2d -> bool
}.

(** The frame of the current cycle, as far as the decider writes it. *)
Record Frame : Type := MkFrame {
  current_frame_planned_path : DiscretizedPath
}.

Definition set_current_frame_planned_path (f : Frame) (p : DiscretizedPath)
  : Frame := MkFrame p.

(** State that outlives a cycle: the flag of
    [planning_status().path_reuse_decider()] and the two static counters. *)
Record Context : Type := MkContext {
  reused_path : bool;
  reusable_path_counter_ : Z;
  total_path_counter_ : Z
}.

Definition set_reused_path (ctx : Context) (b : bool) : Context :=
  MkContext b (reusable_path_counter_ ctx) (total_path_counter_ ctx).

Definition incr_reusable_path_counter (ctx : Context) : Context :=
  MkContext (reused_path ctx) (incr_int (reusable_path_counter_ ctx))
            (total_path_counter_ ctx).

Definition incr_total_path_counter (ctx : Context) : Context :=
  MkContext (reused_path ctx) (reusable_path_counter_ ctx)
            (incr_int (total_path_counter_ ctx)).

Record PathReuseDeciderConfig : Type := MkConfig { reuse_path : bool }.

(** What a cycle of [Process] did, in order: the operations it invoked and
    the error it reported. *)
Inductive Event : Type :=
| CalledCheckPathReusable
| CalledTrimHistoryPath
| CalledIsIgnoredBlockingObstacle
| ReportedFailedToTrim.

(* ------------------------------------------------------------------ *)
(** ** Vehicle position *)

Definition adc_position (c : Cycle) : Vec2d :=
  MkVec2d (vehicle_x (vehicle_state c)) (vehicle_y (vehicle_state c)).

(** A call of [XYToSL] whose returned flag is dropped. *)
Definition XYToSL_unchecked (rl : ReferenceLine) (p : Vec2d) : SLPoint :=
  snd (XYToSL rl p).

(** [GetADCSLPoint]. *)
Definition GetADCSLPoint (c : Cycle) : SLPoint :=
  XYToSL_unchecked (reference_line c) (adc_position c).

(* ------------------------------------------------------------------ *)
(** ** IsIgnoredBlockingObstacle *)

(** [IndexedList::Find]: the item stored under [id], if any.  An indexed
    list holds one item per id; the lookup is written as the first item of
    [Items()] that carries the id. *)
Definition Find (items : list Obstacle) (id : string) : option Obstacle :=
  find (fun o => String.eqb (Id o) id) items.

(** [GetBlockingObstacleS]: [None] is the [false] return, [Some s] the
    [true] return with [*blocking_obstacle_s = s]. *)
Definition GetBlockingObstacleS (c : Cycle) : option Q :=
  let blocking_obstacle_ID := front_static_obstacle_id (path_decider c) in
  match Find (obstacles c) blocking_obstacle_ID with
  | None => None
  | Some blocking_obstacle =>
      Some (start_s (PerceptionSLBoundary blocking_obstacle))
  end.

Definition kSDistBuffer : Q := 30.
Definition kTimeBuffer : Z := 3.

Definition IsIgnoredBlockingObstacle (c : Cycle) : bool :=
  let adc_speed := linear_velocity (vehicle_state c) in
  let final_s_buffer := std_max kSDistBuffer (inject_Z kTimeBuffer * adc_speed) in
  let adc_position_sl := GetADCSLPoint c in
  match GetBlockingObstacleS c with
  | Some blocking_obstacle_start_s =>
      if Qgtb (blocking_obstacle_start_s - sl_s adc_position_sl) final_s_buffer
      then true
      else false
  | None => false
  end.

(* ------------------------------------------------------------------ *)
(** ** IsCollisionFree *)

Definition kMinObstacleArea : Q := 1 # 10000.
Definition kSBuffer : Q := 1 # 2.
Definition kNumExtraTailBoundPoint : Z := 20.
Definition kPathBoundsDeciderResolution : Q := 1 # 2.

(** The [continue] conditions of the obstacle loop. *)
Definition obstacle_filtered (adc_s : Q) (obstacle : Obstacle) : bool :=
  if negb (IsStatic obstacle) || IsVirtual obstacle then true
  else
    let obstacle_sl := PerceptionSLBoundary obstacle in
    if Qltb (end_s obstacle_sl) (adc_s - kSBuffer) then true
    else if Qltb ((end_s obstacle_sl - start_s obstacle_sl) *
                  (end_l obstacle_sl - start_l obstacle_sl))
                 kMinObstacleArea
    then true
    else false.

Definition obstacle_polygon (obstacle : Obstacle) : Polygon2d :=
  let obstacle_sl := PerceptionSLBoundary obstacle in
  [ MkVec2d (start_s obstacle_sl) (start_l obstacle_sl);
    MkVec2d (start_s obstacle_sl) (end_l obstacle_sl);
    MkVec2d (end_s obstacle_sl) (end_l obstacle_sl);
    MkVec2d (end_s obstacle_sl) (start_l obstacle_sl) ].

(** The obstacle loop: [obstacle_polygons] after it. *)
Fixpoint obstacle_polygons (adc_s : Q) (items : list Obstacle)
  : list Polygon2d :=
  match items with
  | [] => []
  | obstacle :: rest =>
      if obstacle_filtered adc_s obstacle
      then obstacle_polygons adc_s rest
      else obstacle_polygon obstacle :: obstacle_polygons adc_s rest
  end.

(** The loop over [obstacle_polygons] for one projected corner: [true] when
    the corner is in one of them. *)
Definition in_some_polygon (c : Cycle) (polygons : list Polygon2d)
           (curr_point : Vec2d) : bool :=
  existsb (fun obstacle_polygon => IsPointIn c obstacle_polygon curr_point)
          polygons.

(** The loop over [ABCDpoints]: [false] is the [return false] of
    [IsCollisionFree] (failed projection or corner in a polygon), [true]
    means the loop ran to its end. *)
Fixpoint corners_pass (c : Cycle) (polygons : list Polygon2d)
         (ABCDpoints : list Vec2d) : bool :=
  match ABCDpoints with
  | [] => true
  | corner_point :: rest =>
      let (ok, curr_point_sl) := XYToSL (reference_line c) corner_point in
      if negb ok then false
      else
        let curr_point := MkVec2d (sl_s curr_point_sl) (sl_l curr_point_sl) in
        if in_some_polygon c polygons curr_point then false
        else corners_pass c polygons rest
  end.

(** The loop over the points of the history path, from the point it is
    given on: the value [IsCollisionFree] returns. *)
Fixpoint scan_history_path (c : Cycle) (polygons : list Polygon2d)
         (adc_s path_end_s : Q) (points : list PathPoint) : bool :=
  match points with
  | [] => true
  | p :: rest =>
      let path_position_sl :=
        XYToSL_unchecked (reference_line c) (MkVec2d (x p) (y p)) in
      if Qltb (path_end_s - sl_s path_position_sl)
              (inject_Z kNumExtraTailBoundPoint * kPathBoundsDeciderResolution)
      then true
      else if Qltb (sl_s path_position_sl) (adc_s - kSBuffer)
      then scan_history_path c polygons adc_s path_end_s rest
      else if corners_pass c polygons (GetAllCorners c p)
      then scan_history_path c polygons adc_s path_end_s rest
      else false
  end.

(** [std::vector::back()]. *)
Definition back {A : Type} (v : list A) : Result A :=
  match rev v with
  | [] => OutOfRange
  | a :: _ => Ok a
  end.

Definition IsCollisionFree (c : Cycle) : Result bool :=
  let adc_position_sl := XYToSL_unchecked (reference_line c) (adc_position c) in
  let polygons := obstacle_polygons (sl_s adc_position_sl) (obstacles c) in
  match polygons with
  | [] => Ok true
  | _ :: _ =>
      match history_frame c with
      | None => Ok false
      | Some history_path =>
          last_point <- back history_path ;;
          let path_end_position_sl :=
            XYToSL_unchecked (reference_line c)
                             (MkVec2d (x last_point) (y last_point)) in
          Ok (scan_history_path c polygons (sl_s adc_position_sl)
                                (sl_s path_end_position_sl) history_path)
      end
  end.

Definition CheckPathReusable (c : Cycle) : Result bool := IsCollisionFree c.

(* ------------------------------------------------------------------ *)
(** ** TrimHistoryPath *)

(** The variables the trimming loop updates. *)
Record TrimVars : Type := MkTrimVars {
  path_start_s : Q;
  path_start_index : nat;
  trimmed_path : DiscretizedPath
}.

Definition TrimVars_init : TrimVars := MkTrimVars 0 0 [].

(** One iteration of the trimming loop, on the point [p = history_path[i]]. *)
Definition trim_step (rl : ReferenceLine) (adc_s : Q) (v : TrimVars)
           (p : PathPoint) : TrimVars :=
  let path_position_sl := XYToSL_unchecked rl (MkVec2d (x p) (y p)) in
  if Qltb (sl_s path_position_sl) adc_s
  then MkTrimVars (sl_s path_position_sl) (S (path_start_index v))
                  (trimmed_path v)
  else
    let updated_s := s p - path_start_s v in
    MkTrimVars (path_start_s v) (path_start_index v)
               (trimmed_path v ++ [set_s p updated_s]).

Definition trim_loop (rl : ReferenceLine) (adc_s : Q)
           (history_path : DiscretizedPath) : TrimVars :=
  fold_left (trim_step rl adc_s) history_path TrimVars_init.

(** [v[i]] on a [std::vector]. *)
Definition at_index {A : Type} (v : list A) (i : nat) : Result A :=
  match nth_error v i with
  | Some a => Ok a
  | None => OutOfRange
  end.

Definition TrimHistoryPath (c : Cycle) (frame : Frame)
  : Result (bool * Frame) :=
  match history_frame c with
  | None => Ok (false, frame)
  | Some history_path =>
      let adc_position_sl :=
        XYToSL_unchecked (reference_line c) (adc_position c) in
      let v := trim_loop (reference_line c) (sl_s adc_position_sl)
                         history_path in
      anchor <- at_index history_path (path_start_index v) ;;
      Ok (true,
          set_current_frame_planned_path frame (anchor :: trimmed_path v))
  end.

(* ------------------------------------------------------------------ *)
(** ** Process *)

Definition kWaitCycle : Z := -2.

(** One cycle of the decider: the context and the frame after it, and what
    it did. *)
Definition Process (cfg : PathReuseDeciderConfig) (c : Cycle)
           (frame : Frame) (ctx : Context)
  : Result (Context * Frame * list Event) :=
  if negb (reuse_path cfg) then Ok (ctx, frame, [])
  else if reused_path ctx then
    reusable <- CheckPathReusable c ;;
    if (reusable : bool) then
      let ctx := incr_reusable_path_counter ctx in
      '(trimmed, frame) <- TrimHistoryPath c frame ;;
      Ok (incr_total_path_counter ctx, frame,
          [CalledCheckPathReusable; CalledTrimHistoryPath] ++
          (if (trimmed : bool) then [] else [ReportedFailedToTrim]))
    else
      let ctx := set_reused_path ctx false in
      Ok (incr_total_path_counter ctx, frame, [CalledCheckPathReusable])
  else if (front_static_obstacle_cycle_counter (path_decider c) <? kWaitCycle)%Z
  then
    let ctx := set_reused_path ctx true in
    Ok (incr_total_path_counter ctx, frame, [])
  else if IsIgnoredBlockingObstacle c then
    let ctx := set_reused_path ctx true in
    Ok (incr_total_path_counter ctx, frame, [CalledIsIgnoredBlockingObstacle])
  else
    Ok (incr_total_path_counter ctx, frame, [CalledIsIgnoredBlockingObstacle]).

(** The step-3 enable condition of the gate. *)
Definition enable_condition (c : Cycle) : bool :=
  (front_static_obstacle_cycle_counter (path_decider c) <? kWaitCycle)%Z
  || IsIgnoredBlockingObstacle c.

(** Consecutive cycles, each on a frame of its own: the context after the
    last one and, for each cycle, its frame afterwards and what it did. *)
Fixpoint run_cycles (cfg : PathReuseDeciderConfig)
         (cycles : list (Cycle * Frame)) (ctx : Context)
  : Result (Context * list (Frame * list Event)) :=
  match cycles with
  | [] => Ok (ctx, [])
  | (c, frame) :: rest =>
      '(ctx1, frame1, events) <- Process cfg c frame ctx ;;
      '(ctx2, outs) <- run_cycles cfg rest ctx1 ;;
      Ok (ctx2, (frame1, events) :: outs)
  end.

(** The same cycle with another content of the frame history. *)
Definition set_history_frame (c : Cycle) (h : option DiscretizedPath)
  : Cycle :=
  MkCycle (reference_line c) (obstacles c) (vehicle_state c) h
          (path_decider c) (GetAllCorners c) (IsPointIn c).

(** The curvilinear [s] the code computes for the vehicle. *)
Definition adc_s (c : Cycle) : Q := sl_s (GetADCSLPoint c).

(** The curvilinear [s] the code computes for a path point. *)
Definition point_sl_s (rl : ReferenceLine) (p : PathPoint) : Q :=
  sl_s (XYToSL_unchecked rl (MkVec2d (x p) (y p))).

(** Area of the curvilinear box of an obstacle, as the filter computes it. *)
Definition box_area (b : SLBoundary) : Q :=
  (end_s b - start_s b) * (end_l b - start_l b).

(* ------------------------------------------------------------------ *)
(** ** Sample collaborators and inputs *)

Module Samples.

(** A reference line along the x axis: [s = x], [l = y], never failing. *)
Definition straight_line : ReferenceLine :=
  MkReferenceLine (fun p => (true, MkSLPoint (vx p) (vy p))).

(** A reference line on which no point projects: every call returns
    [false] and leaves the output point as constructed. *)
Definition no_projection : ReferenceLine :=
  MkReferenceLine (fun _ => (false, SLPoint_default)).

(** Modelled from the spec: the vehicle footprint
    ([VehicleConfigHelper::GetBoundingBox] and [Box2d::GetAllCorners] are
    not in this file of the repository), "function from a path pose to an
    oriented rectangular bounding box (four corners)"; here for a pose of
    heading 0, a vehicle 4 m long and 2 m wide centred on the pose. *)
Definition footprint_corners (p : PathPoint) : list Vec2d :=
  [ MkVec2d (x p + 2) (y p + 1);
    MkVec2d (x p - 2) (y p + 1);
    MkVec2d (x p - 2) (y p - 1);
    MkVec2d (x p + 2) (y p - 1) ].

Definition Qleb_between (lo hi v : Q) : bool :=
  (Qle_bool lo v && Qle_bool v hi) || (Qle_bool hi v && Qle_bool v lo).

(** Modelled from the spec: the point-in-polygon test
    ([Polygon2d::IsPointIn] is not in this file of the repository) for the
    "axis-aligned quadrilaterals in curvilinear space" the checker builds
    from the corners [(start_s,start_l) .. (end_s,end_l)]: the point lies
    in the closed box spanned by the first and third vertex. *)
Definition point_in_box (polygon : Polygon2d) (pt : Vec2d) : bool :=
  match polygon with
  | [a; _; b; _] =>
      Qleb_between (vx a) (vx b) (vx pt) && Qleb_between (vy a) (vy b) (vy pt)
  | _ => false
  end.

Definition point_at (px ps : Q) : PathPoint := MkPathPoint px 0 0 0 ps.

Definition parked_car : Obstacle :=
  MkObstacle "parked" true false (MkSLBoundary 40 42 (-1) 1).

Definition moving_car : Obstacle :=
  MkObstacle "moving" false false (MkSLBoundary 40 42 (-1) 1).

Definition stop_wall : Obstacle :=
  MkObstacle "wall" true true (MkSLBoundary 40 42 (-1) 1).

Definition passed_cone : Obstacle :=
  MkObstacle "cone" true false (MkSLBoundary 2 3 (-1) 1).

Definition speck : Obstacle :=
  MkObstacle "speck" true false (MkSLBoundary 40 (40 + (1 # 100)) 0 (1 # 1000)).

Definition far_truck : Obstacle :=
  MkObstacle "truck" true false (MkSLBoundary 60 70 (-1) 1).

Definition vehicle_at (px speed : Q) : VehicleState :=
  MkVehicleState px 0 speed.

Definition no_blocker : PathDeciderStatus := MkPathDeciderStatus 0 "".

(** Vehicle at [s = 15], a previous path of four points 10 m apart. *)
Definition four_points : DiscretizedPath :=
  [ point_at 0 0; point_at 10 10; point_at 20 20; point_at 30 30 ].

Definition cycle_with (rl : ReferenceLine) (obs : list Obstacle)
           (h : option DiscretizedPath) (pd : PathDeciderStatus) : Cycle :=
  MkCycle rl obs (vehicle_at 15 5) h pd footprint_corners point_in_box.

(** Only obstacles the filter drops, and no frame in the history. *)
Definition filtered_only : Cycle :=
  cycle_with straight_line [moving_car; stop_wall; passed_cone; speck]
             None no_blocker.

(** A parked car ahead, no frame in the history. *)
Definition first_cycle : Cycle :=
  cycle_with straight_line [parked_car] None no_blocker.

(** The truck is the recorded blocking obstacle, 45 m ahead. *)
Definition truck_far_ahead : Cycle :=
  cycle_with straight_line [parked_car; far_truck] (Some four_points)
             (MkPathDeciderStatus 1 "truck").

(** The recorded blocking obstacle is not in the obstacle list. *)
Definition unknown_blocker : Cycle :=
  cycle_with straight_line [parked_car] (Some four_points)
             (MkPathDeciderStatus 1 "ghost").

(** A previous path of seven points 10 m apart, running through the
    parked car. *)
Definition seven_points : DiscretizedPath :=
  [ point_at 0 0; point_at 10 10; point_at 20 20; point_at 30 30;
    point_at 40 40; point_at 50 50; point_at 60 60 ].

Definition parked_car_on_path : Cycle :=
  cycle_with straight_line [parked_car] (Some seven_points)
             (MkPathDeciderStatus 1 "parked").

Definition enabled : PathReuseDeciderConfig := MkConfig true.
Definition disabled : PathReuseDeciderConfig := MkConfig false.

Definition fresh_frame : Frame := MkFrame [].

Definition reuse_on : Context := MkContext true 3 7.
Definition reuse_off : Context := MkContext false 3 7.

(** No obstacle at all, and a previous frame whose planned path is
    empty. *)
Definition empty_history : Cycle :=
  cycle_with straight_line [] (Some []) no_blocker.

(** No obstacle at all, and a previous path that ends behind the vehicle
    (at [s = 15]). *)
Definition all_behind : Cycle :=
  cycle_with straight_line [] (Some [point_at 0 0; point_at 10 10])
             no_blocker.

(** No obstacle, and a previous path that started 100 m down the reference
    line: its points carry arc lengths 0, 10, 20, 30 and project to
    [s] = 100, 110, 120, 130; the vehicle is at [s = 115], between the
    second and the third. *)
Definition offset_points : DiscretizedPath :=
  [ point_at 100 0; point_at 110 10; point_at 120 20; point_at 130 30 ].

Definition offset_path : Cycle :=
  MkCycle straight_line [] (vehicle_at 115 5) (Some offset_points)
          no_blocker footprint_corners point_in_box.

(** A parked car ahead and a previous path, on a reference line on which
    nothing projects. *)
Definition nothing_projects : Cycle :=
  cycle_with no_projection [parked_car] (Some four_points) no_blocker.

(** A reference line whose projection fails left of [l = 1/2]. *)
Definition narrow_line : ReferenceLine :=
  MkReferenceLine
    (fun p => (Qle_bool (vy p) (1 # 2), MkSLPoint (vx p) (vy p))).

Definition narrow_road : Cycle :=
  cycle_with narrow_line [parked_car] (Some seven_points) no_blocker.

(** A crate smaller than the vehicle, lying on the previous path. *)
Definition crate : Obstacle :=
  MkObstacle "crate" true false
             (MkSLBoundary (39 # 2) (41 # 2) (- (1 # 2)) (1 # 2)).

Definition enclosed_crate : Cycle :=
  cycle_with straight_line [crate]
             (Some [point_at 20 20; point_at 40 40]) no_blocker.

End Samples.

(** The same cycle on another reference line. *)
Definition set_reference_line (c : Cycle) (rl : ReferenceLine) : Cycle :=
  MkCycle rl (obstacles c) (vehicle_state c) (history_frame c)
          (path_decider c) (GetAllCorners c) (IsPointIn c).

(** [s < adc_s] for the curvilinear [s] of a path point. *)
Definition behind_adc (rl : ReferenceLine) (adc : Q) (p : PathPoint) : bool :=
  Qltb (point_sl_s rl p) adc.

(** The poses whose bounding-box corners the scan of [IsCollisionFree]
    tests as long as no test rejects: those before the tail reserve that
    are not behind the vehicle. *)
Fixpoint sampled_poses (rl : ReferenceLine) (adc path_end_s : Q)
         (points : list PathPoint) : list PathPoint :=
  match points with
  | [] => []
  | p :: rest =>
      if Qltb (path_end_s - point_sl_s rl p)
              (inject_Z kNumExtraTailBoundPoint * kPathBoundsDeciderResolution)
      then []
      else if Qltb (point_sl_s rl p) (adc - kSBuffer)
      then sampled_poses rl adc path_end_s rest
      else p :: sampled_poses rl adc path_end_s rest
  end.

(** The design document's [path_start_index]: "the last point with
    [s < adc_s]", its index; [found] is the index found so far, [i] the
    index of the head of [points]. *)
Fixpoint last_index_behind (rl : ReferenceLine) (adc : Q)
         (points : list PathPoint) (i : nat) (found : option nat)
  : option nat :=
  match points with
  | [] => found
  | p :: rest =>
      last_index_behind rl adc rest (S i)
                        (if behind_adc rl adc p then Some i else found)
  end.

Definition spec_path_start_index (rl : ReferenceLine) (adc : Q)
           (history_path : DiscretizedPath) : option nat :=
  last_index_behind rl adc history_path 0 None.

(** Trim re-basing as the design document words it: with [anchor] the last
    previous-path point whose curvilinear [s] is below [adc_s] and
    [path_start_s] that point's original arc length, the trimmed path
    starts with [anchor] unchanged, every later output point is a
    previous-path point with [s] rebased by [path_start_s], and the [s]
    values of the output do not decrease. *)
Definition trim_rebasing_as_worded (c : Cycle) (frame : Frame) : Prop :=
  forall (history_path : DiscretizedPath) (i : nat) (anchor : PathPoint),
    history_frame c = Some history_path ->
    spec_path_start_index (reference_line c) (adc_s c) history_path = Some i ->
    nth_error history_path i = Some anchor ->
    exists (rest originals : list PathPoint),
      TrimHistoryPath c frame = Ok (true, MkFrame (anchor :: rest)) /\
      incl originals history_path /\
      rest = map (fun q => set_s q (s q - s anchor)) originals /\
      Sorted Qle (map s (anchor :: rest)).

(** "The operation that needed the projection fails closed": the collision
    checker returns "not collision-free" and the trimmer produces no trimmed
    path. *)
Definition fails_closed (c : Cycle) (frame : Frame) : Prop :=
  IsCollisionFree c = Ok false /\
  forall frame' : Frame, TrimHistoryPath c frame <> Ok (true, frame').

(** Neither the collision check nor the trimmer was invoked. *)
Definition no_check_no_trim (events : list Event) : Prop :=
  ~ In CalledCheckPathReusable events /\ ~ In CalledTrimHistoryPath events.

(** "Each [Process] invocation increments [total_path_counter_] by exactly
    one", for one invocation. *)
Definition increments_total_by_one (cfg : PathReuseDeciderConfig)
           (c : Cycle) (frame : Frame) (ctx : Context) : Prop :=
  forall ctx' frame' events,
    Process cfg c frame ctx = Ok (ctx', frame', events) ->
    total_path_counter_ ctx' = (total_path_counter_ ctx + 1)%Z.

(* ------------------------------------------------------------------ *)
(** ** The stop and obstacle comparators *)

(** [std::sort] on a [std::vector<double>]: the values in non-decreasing
    order, written as an insertion sort. *)
Fixpoint sort_insert (v : Q) (sorted : list Q) : list Q :=
  match sorted with
  | [] => [v]
  | h :: rest => if Qltb v h then v :: sorted else h :: sort_insert v rest
  end.

Definition std_sort (values : list Q) : list Q :=
  fold_right sort_insert [] values.

(** The [stop] member of an [ObjectDecisionType], as far as it is read. *)
Record ObjectStop : Type := MkObjectStop {
  stop_point_x : Q;
  stop_point_y : Q;
  distance_s : Q
}.

(** [ObjectDecisionType]: a stop decision ([has_stop()]) or another one. *)
Inductive ObjectDecisionType : Type :=
| DecisionStop (stop : ObjectStop)
| DecisionOther.

(** [HistoryObjectDecision]: what [GetObjectDecision()] returns. *)
Definition HistoryObjectDecision : Type := list ObjectDecisionType.

(** A [ReferenceLineInfo] of the previous frame, as far as it is read. *)
Record ReferenceLineInfo : Type := MkReferenceLineInfo {
  info_reference_line : ReferenceLine;
  info_obstacles : list Obstacle
}.

(** What the two comparators read beyond [Cycle]. *)
Record Surroundings : Type := MkSurroundings {
  (** the flag [FLAGS_default_front_clear_distance] *)
  FLAGS_default_front_clear_distance : Q;
  (** [Obstacle::IsLaneBlocking] *)
  IsLaneBlocking : Obstacle -> bool;
  (** [history_->GetLastFrame()]: [None] is the null frame, [Some ds] a
      frame whose [GetStopObjectDecisions()] is [ds]. *)
  GetLastFrame : option (list HistoryObjectDecision);
  (** [IsBlockingDrivingPathObstacle] *)
  IsBlockingDrivingPathObstacle : ReferenceLine -> Obstacle -> bool;
  (** [reference_line_info()] of the frame [FrameHistory::Latest()], read
      when that frame is not null. *)
  history_reference_line_info : list ReferenceLineInfo
}.

(** [GetCurrentStopObstacleS]: the vector it fills. *)
Definition GetCurrentStopObstacleS (env : Surroundings) (c : Cycle) : list Q :=
  std_sort (map (fun obstacle => start_s (PerceptionSLBoundary obstacle))
                (filter (IsLaneBlocking env) (obstacles c))).

(** The two loops of [IsSameStopObstacles] that look for the nearest stop:
    the first position that is not below [adc_s], [nearest] (the default
    distance) when there is none. *)
Fixpoint nearest_stop (adc : Q) (nearest : Q) (positions : list Q) : Q :=
  match positions with
  | [] => nearest
  | position :: rest =>
      if Qltb position adc then nearest_stop adc nearest rest else position
  end.

(** [std::list::front()]. *)
Definition front {A : Type} (l : list A) : Result A :=
  match l with
  | [] => OutOfRange
  | a :: _ => Ok a
  end.

(** The loop of [IsSameObstacles] over the current obstacles: [false] is
    its [return false], [true] means it ran to its end. *)
Fixpoint same_obstacles_loop (env : Surroundings)
         (current_reference_line history_reference_line : ReferenceLine)
         (history_obstacles : list Obstacle) (items : list Obstacle) : bool :=
  match items with
  | [] => true
  | obstacle :: rest =>
      match Find history_obstacles (Id obstacle) with
      | None => false
      | Some history_obstacle =>
          if negb (Bool.eqb (IsStatic obstacle) (IsStatic history_obstacle)) ||
             negb (Bool.eqb
                     (IsBlockingDrivingPathObstacle env current_reference_line
                                                    obstacle)
                     (IsBlockingDrivingPathObstacle env history_reference_line
                                                    history_obstacle))
          then false
          else same_obstacles_loop env current_reference_line
                                   history_reference_line history_obstacles rest
      end
  end.

Definition IsSameObstacles (env : Surroundings) (c : Cycle) : Result bool :=
  match history_frame c with
  | None => Ok false
  | Some _ =>
      info <- front (history_reference_line_info env) ;;
      let history_obstacles := info_obstacles info in
      let history_reference_line := info_reference_line info in
      let current_reference_line := reference_line c in
      if negb (Nat.eqb (List.length (obstacles c))
                       (List.length history_obstacles))
      then Ok false
      else Ok (same_obstacles_loop env current_reference_line
                                   history_reference_line history_obstacles
                                   (obstacles c))
  end.

(* ------------------------------------------------------------------ *)
(** ** Further ways to vary a cycle *)

Definition set_obstacles (c : Cycle) (items : list Obstacle) : Cycle :=
  MkCycle (reference_line c) items (vehicle_state c) (history_frame c)
          (path_decider c) (GetAllCorners c) (IsPointIn c).

Definition set_linear_velocity (c : Cycle) (speed : Q) : Cycle :=
  MkCycle (reference_line c) (obstacles c)
          (MkVehicleState (vehicle_x (vehicle_state c))
                          (vehicle_y (vehicle_state c)) speed)
          (history_frame c) (path_decider c) (GetAllCorners c) (IsPointIn c).

(** The obstacles the filter of [IsCollisionFree] keeps. *)
Definition surviving_obstacles (adc : Q) (items : list Obstacle)
  : list Obstacle :=
  filter (fun o => negb (obstacle_filtered adc o)) items.

(** The point a corner is tested as: its projection, as a [Vec2d]. *)
Definition projected_corner (rl : ReferenceLine) (corner : Vec2d) : Vec2d :=
  MkVec2d (sl_s (XYToSL_unchecked rl corner)) (sl_l (XYToSL_unchecked rl corner)).

(** The projected corners are the four corners of an axis-aligned
    rectangle of the curvilinear frame, and the box lies strictly inside
    that rectangle. *)
Definition corners_enclose (projected : list Vec2d) (b : SLBoundary) : Prop :=
  exists lo_s hi_s lo_l hi_l : Q,
    projected = [ MkVec2d hi_s hi_l; MkVec2d lo_s hi_l;
                  MkVec2d lo_s lo_l; MkVec2d hi_s lo_l ] /\
    lo_s < start_s b /\ start_s b <= end_s b /\ end_s b < hi_s /\
    lo_l < start_l b /\ start_l b <= end_l b /\ end_l b < hi_l.

(** Position, heading and curvature of a path point: all but its [s]. *)
Definition pose_of (p : PathPoint) : Q * Q * Q * Q :=
  (x p, y p, theta p, kappa p).

(* ------------------------------------------------------------------ *)
(** ** Inputs for the comparators *)

Module Fixtures.

(** Every static obstacle blocks the lane; the other collaborators are
    given with each input. *)
Definition surroundings (last_frame : option (list HistoryObjectDecision))
           (infos : list ReferenceLineInfo) : Surroundings :=
  MkSurroundings 300 IsStatic last_frame (fun _ o => IsStatic o) infos.

(** The previous frame recorded no stop; nothing blocks the lane ahead. *)
Definition open_road : Surroundings := surroundings (Some []) [].

(** Vehicle at [s = 15]; the parked car (at [s = 40]) and the truck. *)
Definition car_and_truck : Cycle :=
  Samples.cycle_with Samples.straight_line
                     [Samples.far_truck; Samples.parked_car]
                     (Some Samples.four_points) Samples.no_blocker.

(** The previous frame saw the same two obstacles on the same line. *)
Definition same_scene : Surroundings :=
  surroundings None
               [MkReferenceLineInfo Samples.straight_line
                                    [Samples.far_truck; Samples.parked_car]].

End Fixtures.

(* ------------------------------------------------------------------ *)
(** ** The collision checker and the distance buffer on IEEE doubles

    The embedding above computes with exact rationals.  Where the verdict
    of a test depends on the rounding of a subtraction or a product, the
    functions are embedded a second time, operation for operation, over
    the binary64 floats of the kernel ([PrimFloat]): [<] is [<?] (false on
    NaN), [-] and [*] round to nearest, and a decimal literal denotes the
    nearest double, as it does in the source. *)

Set Warnings "-inexact-float".

Module Binary64.

Local Open Scope float_scope.

Record Vec2d : Type := MkVec2d { vx : float; vy : float }.

Record SLPoint : Type := MkSLPoint { sl_s : float; sl_l : float }.

Record SLBoundary : Type := MkSLBoundary {
  start_s : float;
  end_s : float;
  start_l : float;
  end_l : float
}.

Record Obstacle : Type := MkObstacle {
  Id : string;
  IsStatic : bool;
  IsVirtual : bool;
  PerceptionSLBoundary : SLBoundary
}.

Record PathPoint : Type := MkPathPoint {
  x : float;
  y : float;
  theta : float;
  kappa : float;
  s : float
}.

Definition DiscretizedPath : Type := list PathPoint.

Definition Polygon2d : Type := list Vec2d.

(** [ReferenceLine::XYToSL(xy, &sl)] called on a freshly constructed [sl]:
    the flag it returns, and the content of [sl] after the call. *)
Record ReferenceLine : Type := MkReferenceLine {
  XYToSL : Vec2d -> bool * SLPoint
}.

Record VehicleState : Type := MkVehicleState {
  vehicle_x : float;
  vehicle_y : float;
  linear_velocity : float
}.

(** What one planning cycle lets the decider read. *)
Record Cycle : Type := MkCycle {
  reference_line : ReferenceLine;
  obstacles : list Obstacle;
  vehicle_state : VehicleState;
  history_frame : option DiscretizedPath;
  path_decider : PathDeciderStatus;
  GetAllCorners : PathPoint -> list Vec2d;
  IsPointIn : Polygon2d -> Vec2d -> bool
}.

Definition adc_position (c : Cycle) : Vec2d :=
  MkVec2d (vehicle_x (vehicle_state c)) (vehicle_y (vehicle_state c)).

(** A call of [XYToSL] whose returned flag is dropped. *)
Definition XYToSL_unchecked (rl : ReferenceLine) (p : Vec2d) : SLPoint :=
  snd (XYToSL rl p).

(** [GetADCSLPoint]. *)
Definition GetADCSLPoint (c : Cycle) : SLPoint :=
  XYToSL_unchecked (reference_line c) (adc_position c).

(** [std::max(a, b)]: [(a < b) ? b : a]. *)
Definition std_max (a b : float) : float := if a <? b then b else a.

(** [IndexedList::Find], as in the exact embedding. *)
Definition Find (items : list Obstacle) (id : string) : option Obstacle :=
  find (fun o => String.eqb (Id o) id) items.

(** [GetBlockingObstacleS]. *)
Definition GetBlockingObstacleS (c : Cycle) : option float :=
  let blocking_obstacle_ID := front_static_obstacle_id (path_decider c) in
  match Find (obstacles c) blocking_obstacle_ID with
  | None => None
  | Some blocking_obstacle =>
      Some (start_s (PerceptionSLBoundary blocking_obstacle))
  end.

Definition kSDistBuffer : float := 30.
(** [kTimeBuffer] is the [int] 3; the product converts it to a double. *)
Definition kTimeBuffer : float := 3.

Definition IsIgnoredBlockingObstacle (c : Cycle) : bool :=
  let adc_speed := linear_velocity (vehicle_state c) in
  let final_s_buffer := std_max kSDistBuffer (kTimeBuffer * adc_speed) in
  let adc_position_sl := GetADCSLPoint c in
  match GetBlockingObstacleS c with
  | Some blocking_obstacle_start_s =>
      if final_s_buffer <? blocking_obstacle_start_s - sl_s adc_position_sl
      then true
      else false
  | None => false
  end.

Definition kMinObstacleArea : float := 1e-4.
Definition kSBuffer : float := 0.5.
(** [kNumExtraTailBoundPoint] is the [int] 20. *)
Definition kNumExtraTailBoundPoint : float := 20.
Definition kPathBoundsDeciderResolution : float := 0.5.

(** The [continue] conditions of the obstacle loop. *)
Definition obstacle_filtered (adc_s : float) (obstacle : Obstacle) : bool :=
  if negb (IsStatic obstacle) || IsVirtual obstacle then true
  else
    let obstacle_sl := PerceptionSLBoundary obstacle in
    if end_s obstacle_sl <? adc_s - kSBuffer then true
    else if (end_s obstacle_sl - start_s obstacle_sl) *
            (end_l obstacle_sl - start_l obstacle_sl) <? kMinObstacleArea
    then true
    else false.

Definition obstacle_polygon (obstacle : Obstacle) : Polygon2d :=
  let obstacle_sl := PerceptionSLBoundary obstacle in
  [ MkVec2d (start_s obstacle_sl) (start_l obstacle_sl);
    MkVec2d (start_s obstacle_sl) (end_l obstacle_sl);
    MkVec2d (end_s obstacle_sl) (end_l obstacle_sl);
    MkVec2d (end_s obstacle_sl) (start_l obstacle_sl) ].

(** The obstacle loop: [obstacle_polygons] after it. *)
Fixpoint obstacle_polygons (adc_s : float) (items : list Obstacle)
  : list Polygon2d :=
  match items with
  | [] => []
  | obstacle :: rest =>
      if obstacle_filtered adc_s obstacle
      then obstacle_polygons adc_s rest
      else obstacle_polygon obstacle :: obstacle_polygons adc_s rest
  end.

Definition in_some_polygon (c : Cycle) (polygons : list Polygon2d)
           (curr_point : Vec2d) : bool :=
  existsb (fun obstacle_polygon => IsPointIn c obstacle_polygon curr_point)
          polygons.

(** The loop over [ABCDpoints]: [false] is the [return false] of
    [IsCollisionFree], [true] means the loop ran to its end. *)
Fixpoint corners_pass (c : Cycle) (polygons : list Polygon2d)
         (ABCDpoints : list Vec2d) : bool :=
  match ABCDpoints with
  | [] => true
  | corner_point :: rest =>
      let (ok, curr_point_sl) := XYToSL (reference_line c) corner_point in
      if negb ok then false
      else
        let curr_point := MkVec2d (sl_s curr_point_sl) (sl_l curr_point_sl) in
        if in_some_polygon c polygons curr_point then false
        else corners_pass c polygons rest
  end.

(** The loop over the points of the history path: the value
    [IsCollisionFree] returns. *)
Fixpoint scan_history_path (c : Cycle) (polygons : list Polygon2d)
         (adc_s path_end_s : float) (points : list PathPoint) : bool :=
  match points with
  | [] => true
  | p :: rest =>
      let path_position_sl :=
        XYToSL_unchecked (reference_line c) (MkVec2d (x p) (y p)) in
      if path_end_s - sl_s path_position_sl
         <? kNumExtraTailBoundPoint * kPathBoundsDeciderResolution
      then true
      else if sl_s path_position_sl <? adc_s - kSBuffer
      then scan_history_path c polygons adc_s path_end_s rest
      else if corners_pass c polygons (GetAllCorners c p)
      then scan_history_path c polygons adc_s path_end_s rest
      else false
  end.

Definition IsCollisionFree (c : Cycle) : Result bool :=
  let adc_position_sl := XYToSL_unchecked (reference_line c) (adc_position c) in
  let polygons := obstacle_polygons (sl_s adc_position_sl) (obstacles c) in
  match polygons with
  | [] => Ok true
  | _ :: _ =>
      match history_frame c with
      | None => Ok false
      | Some history_path =>
          last_point <- back history_path ;;
          let path_end_position_sl :=
            XYToSL_unchecked (reference_line c)
                             (MkVec2d (x last_point) (y last_point)) in
          Ok (scan_history_path c polygons (sl_s adc_position_sl)
                                (sl_s path_end_position_sl) history_path)
      end
  end.

(** The same cycle with another content of the frame history. *)
Definition set_history_frame (c : Cycle) (h : option DiscretizedPath)
  : Cycle :=
  MkCycle (reference_line c) (obstacles c) (vehicle_state c) h
          (path_decider c) (GetAllCorners c) (IsPointIn c).

(** The curvilinear [s] the code computes for the vehicle. *)
Definition adc_s (c : Cycle) : float := sl_s (GetADCSLPoint c).

(** The curvilinear [s] the code computes for a path point. *)
Definition point_sl_s (rl : ReferenceLine) (p : PathPoint) : float :=
  sl_s (XYToSL_unchecked rl (MkVec2d (x p) (y p))).

(** The obstacles the filter keeps. *)
Definition surviving_obstacles (adc : float) (items : list Obstacle)
  : list Obstacle :=
  filter (fun o => negb (obstacle_filtered adc o)) items.

(** The point a corner is tested as: its projection, as a [Vec2d]. *)
Definition projected_corner (rl : ReferenceLine) (corner : Vec2d) : Vec2d :=
  MkVec2d (sl_s (XYToSL_unchecked rl corner)) (sl_l (XYToSL_unchecked rl corner)).

(** The poses whose bounding-box corners the scan tests as long as no test
    rejects. *)
Fixpoint sampled_poses (rl : ReferenceLine) (adc path_end_s : float)
         (points : list PathPoint) : list PathPoint :=
  match points with
  | [] => []
  | p :: rest =>
      if path_end_s - point_sl_s rl p
         <? kNumExtraTailBoundPoint * kPathBoundsDeciderResolution
      then []
      else if point_sl_s rl p <? adc - kSBuffer
      then sampled_poses rl adc path_end_s rest
      else p :: sampled_poses rl adc path_end_s rest
  end.

Module Samples.

(** A reference line along the x axis: [s = x], [l = y], never failing. *)
Definition straight_line : ReferenceLine :=
  MkReferenceLine (fun p => (true, MkSLPoint (vx p) (vy p))).

(** Modelled from the spec: the vehicle footprint, "function from a path
    pose to an oriented rectangular bounding box (four corners)"; here for
    a pose of heading 0, a vehicle 4 m long and 2 m wide centred on the
    pose. *)
Definition footprint_corners (p : PathPoint) : list Vec2d :=
  [ MkVec2d (x p + 2) (y p + 1);
    MkVec2d (x p - 2) (y p + 1);
    MkVec2d (x p - 2) (y p - 1);
    MkVec2d (x p + 2) (y p - 1) ].

Definition between (lo hi v : float) : bool :=
  ((lo <=? v) && (v <=? hi)) || ((hi <=? v) && (v <=? lo)).

(** Modelled from the spec: the point-in-polygon test for the
    "axis-aligned quadrilaterals in curvilinear space" the checker builds:
    the point lies in the closed box spanned by the first and third
    vertex. *)
Definition point_in_box (polygon : Polygon2d) (pt : Vec2d) : bool :=
  match polygon with
  | [a; _; b; _] =>
      between (vx a) (vx b) (vx pt) && between (vy a) (vy b) (vy pt)
  | _ => false
  end.

Definition point_at (px ps : float) : PathPoint := MkPathPoint px 0 0 0 ps.

Definition box_obstacle (id : string) (is_static is_virtual : bool)
           (s0 s1 l0 l1 : float) : Obstacle :=
  MkObstacle id is_static is_virtual (MkSLBoundary s0 s1 l0 l1).

Definition cycle_at (adc speed : float) (obs : list Obstacle)
           (h : option DiscretizedPath) (pd : PathDeciderStatus) : Cycle :=
  MkCycle straight_line obs (MkVehicleState adc 0 speed) h pd
          footprint_corners point_in_box.

(** Vehicle at [s = 15]: a moving car, a virtual wall, a cone passed long
    ago and a speck of 0.01 m by 0.001 m; no frame in the history. *)
Definition filtered_only : Cycle :=
  cycle_at 15 5
           [ box_obstacle "moving" false false 40 42 (-1) 1;
             box_obstacle "wall" true true 40 42 (-1) 1;
             box_obstacle "cone" true false 2 3 (-1) 1;
             box_obstacle "speck" true false 40 40.01 0 0.001 ]
           None (MkPathDeciderStatus 0 "").

(** Vehicle at [s = 0.1], an obstacle that ends at [s = -0.4]: the
    difference [0.1 - 0.5] rounds to [-0.4], so the obstacle is not behind
    the buffer. *)
Definition boundary_obstacle : Cycle :=
  cycle_at 0.1 5 [ box_obstacle "edge" true false (-2) (-0.4) (-1) 1 ]
           None (MkPathDeciderStatus 0 "").

(** The truck is the recorded blocking obstacle, 45 m ahead of a vehicle
    at [s = 15] that drives 5 m/s. *)
Definition truck_far_ahead : Cycle :=
  cycle_at 15 5
           [ box_obstacle "parked" true false 40 42 (-1) 1;
             box_obstacle "truck" true false 60 70 (-1) 1 ]
           None (MkPathDeciderStatus 1 "truck").

(** The recorded blocking obstacle is not in the obstacle list. *)
Definition unknown_blocker : Cycle :=
  cycle_at 15 5 [ box_obstacle "parked" true false 40 42 (-1) 1 ]
           None (MkPathDeciderStatus 1 "ghost").

(** The blocking obstacle starts at [s = 30.1], the vehicle is at
    [s = 0.1]: the difference rounds to [30.0], which does not exceed the
    buffer. *)
Definition blocker_at_buffer : Cycle :=
  cycle_at 0.1 5 [ box_obstacle "truck" true false 30.1 40 (-1) 1 ]
           None (MkPathDeciderStatus 1 "truck").

(** A previous path of two points, at [s = 0.1] and [s = 10.1], through an
    obstacle at [s] in [1, 3]; the vehicle is at [s = 0]. *)
Definition ten_metre_path : Cycle :=
  cycle_at 0 5 [ box_obstacle "block" true false 1 3 (-1) 1 ]
           (Some [point_at 0.1 0; point_at 10.1 10])
           (MkPathDeciderStatus 0 "").

(** The same obstacle on a previous path of two points 6 m apart. *)
Definition six_metre_path : Cycle :=
  cycle_at 0 5 [ box_obstacle "block" true false 1 3 (-1) 1 ]
           (Some [point_at 0 0; point_at 6 6])
           (MkPathDeciderStatus 0 "").

(** A parked car at [s] in [40, 42] that the previous path, seven points
    10 m apart, runs clear of on the left ([l = 4]). *)
Definition passing_path : Cycle :=
  MkCycle straight_line [ box_obstacle "parked" true false 40 42 (-1) 1 ]
          (MkVehicleState 15 0 5)
          (Some [ MkPathPoint 0 4 0 0 0; MkPathPoint 10 4 0 0 10;
                  MkPathPoint 20 4 0 0 20; MkPathPoint 30 4 0 0 30;
                  MkPathPoint 40 4 0 0 40; MkPathPoint 50 4 0 0 50;
                  MkPathPoint 60 4 0 0 60 ])
          (MkPathDeciderStatus 0 "") footprint_corners point_in_box.

End Samples.

End Binary64.

(* ------------------------------------------------------------------ *)
(** ** Comparisons *)

Lemma Qltb_lt (a b : Q) : Qltb a b = true <-> a < b.
Proof.
  unfold Qltb. rewrite Qlt_alt.
  destruct (a ?= b); split; intro H; try reflexivity; discriminate H.
Qed.

Lemma Qltb_ge (a b : Q) : Qltb a b = false <-> b <= a.
Proof.
  split; intro H.
  - apply Qnot_lt_le. intro Hlt. apply Qltb_lt in Hlt. congruence.
  - destruct (Qltb a b) eqn:E; [|reflexivity].
    apply Qltb_lt in E. exfalso. exact (Qlt_not_le _ _ E H).
Qed.

Lemma std_max_Qmax (a b : Q) : std_max a b == Qmax a b.
Proof.
  unfold std_max. destruct (Qltb a b) eqn:E.
  - apply Qltb_lt in E. symmetry. apply Q.max_r. apply Qlt_le_weak, E.
  - apply Qltb_ge in E. symmetry. apply Q.max_l. exact E.
Qed.

(* ------------------------------------------------------------------ *)
(** ** The obstacle filter *)

(** The filter drops exactly the obstacles of the four kinds the design
    document lists. *)
Lemma obstacle_filtered_iff (a : Q) (o : Obstacle) :
  obstacle_filtered a o = true <->
  IsStatic o = false \/ IsVirtual o = true \/
  end_s (PerceptionSLBoundary o) < a - (1 # 2) \/
  box_area (PerceptionSLBoundary o) < 1 # 10000.
Proof.
  unfold obstacle_filtered, box_area, kSBuffer, kMinObstacleArea.
  destruct (IsStatic o), (IsVirtual o); simpl;
    try (split; [auto | reflexivity]).
  destruct (Qltb (end_s _) _) eqn:E1.
  - apply Qltb_lt in E1. split; auto.
  - destruct (Qltb (_ * _) _) eqn:E2.
    + apply Qltb_lt in E2. split; auto.
    + split; [discriminate|].
      intros [H | [H | [H | H]]]; try discriminate H;
        apply Qltb_lt in H; congruence.
Qed.

Lemma obstacle_polygons_all_filtered (a : Q) (items : list Obstacle) :
  Forall (fun o => obstacle_filtered a o = true) items ->
  obstacle_polygons a items = [].
Proof.
  induction 1 as [|o rest Ho _ IH]; simpl.
  - reflexivity.
  - rewrite Ho. exact IH.
Qed.

Lemma obstacle_polygons_survivor (a : Q) (items : list Obstacle) (o : Obstacle) :
  In o items -> obstacle_filtered a o = false ->
  obstacle_polygons a items <> [].
Proof.
  induction items as [|o' rest IH]; simpl; intros Hin Hf.
  - contradiction.
  - destruct (obstacle_filtered a o') eqn:E.
    + destruct Hin as [-> | Hin]; [congruence | exact (IH Hin Hf)].
    + discriminate.
Qed.

(* ------------------------------------------------------------------ *)
(** ** Early exit of the collision checker *)

Lemma IsCollisionFree_no_polygons (c : Cycle) :
  obstacle_polygons (adc_s c) (obstacles c) = [] ->
  IsCollisionFree c = Ok true.
Proof.
  intro Hnone. unfold IsCollisionFree.
  fold (GetADCSLPoint c). fold (adc_s c).
  rewrite Hnone. reflexivity.
Qed.

(** C5. Missing history is a normal negative result: when an obstacle
    survives the filter and the history holds no previous frame,
    [IsCollisionFree] returns false, and returns it as a value (no access
    outside a vector happens). *)
Theorem IsCollisionFree_missing_history (c : Cycle) (o : Obstacle) :
  In o (obstacles c) ->
  obstacle_filtered (adc_s c) o = false ->
  history_frame c = None ->
  IsCollisionFree c = Ok false.
Proof.
  intros Hin Hkeep Hnone.
  pose proof (obstacle_polygons_survivor _ _ _ Hin Hkeep) as Hne.
  unfold IsCollisionFree. fold (GetADCSLPoint c). fold (adc_s c).
  destruct (obstacle_polygons (adc_s c) (obstacles c)) as [|poly polys].
  - contradiction Hne. reflexivity.
  - rewrite Hnone. reflexivity.
Qed.

Lemma IsCollisionFree_missing_history_witness :
  IsCollisionFree Samples.first_cycle = Ok false.
Proof.
  apply (@IsCollisionFree_missing_history Samples.first_cycle Samples.parked_car).
  - simpl. left. reflexivity.
  - reflexivity.
  - reflexivity.
Defined.

(* ------------------------------------------------------------------ *)
(** ** The blocking obstacle *)

Lemma Find_Some (items : list Obstacle) (id : string) (o : Obstacle) :
  Find items id = Some o -> In o items /\ Id o = id.
Proof.
  unfold Find. intro H. apply find_some in H. destruct H as [Hin Heq].
  split; [exact Hin | apply String.eqb_eq; exact Heq].
Qed.

(* ------------------------------------------------------------------ *)
(** ** The reuse gate *)

(** A cycle entered with the flag off: the flag becomes the enable
    condition, nothing else but the total counter changes. *)
Lemma Process_reuse_off (cfg : PathReuseDeciderConfig) (c : Cycle)
      (frame : Frame) (ctx : Context) :
  reuse_path cfg = true ->
  reused_path ctx = false ->
  Process cfg c frame ctx =
  Ok (incr_total_path_counter (set_reused_path ctx (enable_condition c)),
      frame,
      if (front_static_obstacle_cycle_counter (path_decider c) <? kWaitCycle)%Z
      then [] else [CalledIsIgnoredBlockingObstacle]).
Proof.
  intros Hcfg Hoff. unfold Process, enable_condition.
  rewrite Hcfg, Hoff. simpl.
  destruct (front_static_obstacle_cycle_counter (path_decider c) <? kWaitCycle)%Z;
    simpl; [reflexivity|].
  destruct (IsIgnoredBlockingObstacle c); [reflexivity|].
  destruct ctx as [rp r t]. simpl in Hoff. subst rp. reflexivity.
Qed.

Lemma enable_condition_true (c : Cycle) :
  enable_condition c = true <->
  (front_static_obstacle_cycle_counter (path_decider c) < -2)%Z \/
  IsIgnoredBlockingObstacle c = true.
Proof.
  unfold enable_condition, kWaitCycle.
  rewrite orb_true_iff, Z.ltb_lt. reflexivity.
Qed.

(** C6. Gate re-enable rule: a cycle entered with [reused_path == false]
    and reuse enabled by configuration sets [reused_path] to true if and
    only if [front_static_obstacle_cycle_counter < -2] or
    [IsIgnoredBlockingObstacle] returns true; in either case the cycle
    invokes neither the collision check nor the trimmer and leaves the
    frame's path alone, and when neither condition holds the flag is left
    as it was. *)
Theorem Process_gate_reenable (cfg : PathReuseDeciderConfig) (c : Cycle)
        (frame : Frame) (ctx : Context) :
  reuse_path cfg = true ->
  reused_path ctx = false ->
  exists (ctx' : Context) (events : list Event),
    Process cfg c frame ctx = Ok (ctx', frame, events) /\
    (reused_path ctx' = true <->
     (front_static_obstacle_cycle_counter (path_decider c) < -2)%Z \/
     IsIgnoredBlockingObstacle c = true) /\
    no_check_no_trim events /\
    reusable_path_counter_ ctx' = reusable_path_counter_ ctx /\
    (~ ((front_static_obstacle_cycle_counter (path_decider c) < -2)%Z \/
        IsIgnoredBlockingObstacle c = true) ->
     reused_path ctx' = reused_path ctx).
Proof.
  intros Hcfg Hoff.
  eexists. eexists. split; [apply Process_reuse_off; assumption|].
  simpl. split; [apply enable_condition_true|].
  split.
  - unfold no_check_no_trim.
    destruct (_ <? _)%Z; simpl; split; intro H;
      repeat (destruct H as [H|H]; try discriminate H); exact H.
  - split; [reflexivity|].
    intro Hno. rewrite Hoff.
    destruct (enable_condition c) eqn:E; [|reflexivity].
    exfalso. apply Hno. apply enable_condition_true. exact E.
Qed.

Lemma Process_gate_reenable_witness :
  exists (ctx' : Context) (events : list Event),
    Process Samples.enabled Samples.truck_far_ahead Samples.fresh_frame
            Samples.reuse_off
    = Ok (ctx', Samples.fresh_frame, events) /\
    (reused_path ctx' = true <->
     (front_static_obstacle_cycle_counter
        (path_decider Samples.truck_far_ahead) < -2)%Z \/
     IsIgnoredBlockingObstacle Samples.truck_far_ahead = true) /\
    no_check_no_trim events /\
    reusable_path_counter_ ctx' = reusable_path_counter_ Samples.reuse_off /\
    (~ ((front_static_obstacle_cycle_counter
           (path_decider Samples.truck_far_ahead) < -2)%Z \/
        IsIgnoredBlockingObstacle Samples.truck_far_ahead = true) ->
     reused_path ctx' = reused_path Samples.reuse_off).
Proof.
  apply Process_gate_reenable; reflexivity.
Defined.

(** While the enable condition stays false, cycles entered with the flag
    off leave it off, return normally, and neither check nor trim. *)
Lemma run_cycles_reuse_stays_off (cfg : PathReuseDeciderConfig)
      (later : list (Cycle * Frame)) :
  forall ctx : Context,
    reused_path ctx = false ->
    Forall (fun cf => enable_condition (fst cf) = false) later ->
    exists (ctx' : Context) (outs : list (Frame * list Event)),
      run_cycles cfg later ctx = Ok (ctx', outs) /\
      reused_path ctx' = false /\
      map fst outs = map snd later /\
      Forall (fun out => no_check_no_trim (snd out)) outs.
Proof.
  induction later as [|[c frame] rest IH]; intros ctx Hoff Hall.
  - exists ctx, []. simpl. repeat split; [exact Hoff | constructor].
  - inversion Hall as [|? ? Hc Hrest]; subst. simpl in Hc.
    destruct (reuse_path cfg) eqn:Hcfg.
    + destruct (IH (incr_total_path_counter
                      (set_reused_path ctx (enable_condition c))))
        as (ctx' & outs & Hrun & Hoff' & Hframes & Hev).
      { rewrite Hc. reflexivity. }
      { exact Hrest. }
      exists ctx'. eexists. simpl.
      rewrite (@Process_reuse_off cfg c frame ctx Hcfg Hoff). simpl.
      rewrite Hrun. simpl. split; [reflexivity|].
      split; [exact Hoff'|]. simpl. split; [f_equal; exact Hframes|].
      constructor; [|exact Hev].
      unfold no_check_no_trim. simpl.
      destruct (_ <? _)%Z; simpl; split; intro H;
        repeat (destruct H as [H|H]; try discriminate H); exact H.
    + destruct (IH ctx Hoff Hrest) as (ctx' & outs & Hrun & Hoff' & Hframes & Hev).
      exists ctx'. eexists. simpl. unfold Process. rewrite Hcfg. simpl.
      rewrite Hrun. simpl. split; [reflexivity|].
      split; [exact Hoff'|]. simpl. split; [f_equal; exact Hframes|].
      constructor; [|exact Hev].
      unfold no_check_no_trim. simpl. split; intro H; exact H.
Qed.

(** C1. Gate monotonic safety: in a cycle entered with [reused_path] true
    in which the collision check returns false (the check is reached, so
    reuse is enabled by configuration), [Process] sets [reused_path] to
    false in that same cycle, invokes no trim and hands no path over (the
    frame is untouched, the reuse counter does not move), and over every
    run of subsequent cycles in which the step-3 enable condition does not
    hold [reused_path] is still false and no cycle checks or trims. *)
Theorem Process_gate_monotonic_safety (cfg : PathReuseDeciderConfig)
        (c : Cycle) (frame : Frame) (ctx : Context)
        (later : list (Cycle * Frame)) :
  reuse_path cfg = true ->
  reused_path ctx = true ->
  CheckPathReusable c = Ok false ->
  Forall (fun cf => enable_condition (fst cf) = false) later ->
  exists ctx1 : Context,
    Process cfg c frame ctx = Ok (ctx1, frame, [CalledCheckPathReusable]) /\
    reused_path ctx1 = false /\
    reusable_path_counter_ ctx1 = reusable_path_counter_ ctx /\
    exists (ctx2 : Context) (outs : list (Frame * list Event)),
      run_cycles cfg later ctx1 = Ok (ctx2, outs) /\
      reused_path ctx2 = false /\
      map fst outs = map snd later /\
      Forall (fun out => no_check_no_trim (snd out)) outs.
Proof.
  intros Hcfg Hon Hcheck Hlater.
  exists (incr_total_path_counter (set_reused_path ctx false)).
  split.
  - unfold Process. rewrite Hcfg, Hon, Hcheck. reflexivity.
  - split; [reflexivity|]. split; [reflexivity|].
    apply run_cycles_reuse_stays_off; [reflexivity | exact Hlater].
Qed.

Lemma Process_gate_monotonic_safety_witness :
  exists ctx1 : Context,
    Process Samples.enabled Samples.parked_car_on_path Samples.fresh_frame
            Samples.reuse_on
    = Ok (ctx1, Samples.fresh_frame, [CalledCheckPathReusable]) /\
    reused_path ctx1 = false /\
    reusable_path_counter_ ctx1 = reusable_path_counter_ Samples.reuse_on /\
    exists (ctx2 : Context) (outs : list (Frame * list Event)),
      run_cycles Samples.enabled
                 [(Samples.parked_car_on_path, Samples.fresh_frame);
                  (Samples.unknown_blocker, Samples.fresh_frame)] ctx1
      = Ok (ctx2, outs) /\
      reused_path ctx2 = false /\
      map fst outs = map snd [(Samples.parked_car_on_path, Samples.fresh_frame);
                              (Samples.unknown_blocker, Samples.fresh_frame)] /\
      Forall (fun out => no_check_no_trim (snd out)) outs.
Proof.
  apply Process_gate_monotonic_safety.
  - reflexivity.
  - reflexivity.
  - vm_compute. reflexivity.
  - repeat constructor.
Defined.

(* ------------------------------------------------------------------ *)
(** ** The two counters *)

Lemma incr_int_no_overflow (z : Z) :
  (INT_MIN <= z + 1 <= INT_MAX)%Z -> incr_int z = (z + 1)%Z.
Proof.
  unfold incr_int, wrap_int, INT_MIN, INT_MAX. intro H.
  rewrite Z.mod_small; lia.
Qed.

(** The context one call of [Process] leaves, in terms of two bits: whether
    the total counter was incremented and whether the reuse counter was. *)
Lemma Process_counters_step (cfg : PathReuseDeciderConfig) (c : Cycle)
      (frame : Frame) (ctx ctx' : Context) (frame' : Frame)
      (events : list Event) :
  Process cfg c frame ctx = Ok (ctx', frame', events) ->
  total_path_counter_ ctx' =
    (if reuse_path cfg then incr_int (total_path_counter_ ctx)
     else total_path_counter_ ctx) /\
  ((reuse_path cfg = true /\ reused_path ctx = true /\
    CheckPathReusable c = Ok true /\
    reusable_path_counter_ ctx' = incr_int (reusable_path_counter_ ctx)) \/
   (~ (reuse_path cfg = true /\ reused_path ctx = true /\
       CheckPathReusable c = Ok true) /\
    reusable_path_counter_ ctx' = reusable_path_counter_ ctx)).
Proof.
  unfold Process. destruct (reuse_path cfg); simpl.
  - destruct (reused_path ctx) eqn:Hon.
    + destruct (CheckPathReusable c) as [[|]|] eqn:Hcheck; simpl.
      * destruct (TrimHistoryPath c frame) as [[trimmed f]|]; simpl;
          [|discriminate].
        intro H. injection H as <- _ _. simpl. split; [reflexivity|].
        left. repeat split; reflexivity.
      * intro H. injection H as <- _ _. simpl. split; [reflexivity|].
        right. split; [|reflexivity]. intros (_ & _ & H). discriminate H.
      * discriminate.
    + destruct (_ <? _)%Z; [|destruct (IsIgnoredBlockingObstacle c)];
        intro H; injection H as <- _ _; simpl; (split; [reflexivity|]);
        right; (split; [|reflexivity]); intros (_ & H & _); discriminate H.
  - intro H. injection H as <- _ _. split; [reflexivity|].
    right. split; [|reflexivity]. intros (H & _). discriminate H.
Qed.

(** The counters are only written: the flag, the frame and the events of a
    cycle are the same for any values of the two counters. *)
Lemma Process_ignores_counters (cfg : PathReuseDeciderConfig) (c : Cycle)
      (frame : Frame) (ctx ctx' : Context) (frame' : Frame)
      (events : list Event) (r t : Z) :
  Process cfg c frame ctx = Ok (ctx', frame', events) ->
  exists ctx2 : Context,
    Process cfg c frame (MkContext (reused_path ctx) r t)
    = Ok (ctx2, frame', events) /\
    reused_path ctx2 = reused_path ctx'.
Proof.
  destruct ctx as [rp r0 t0]. unfold Process. simpl.
  destruct (reuse_path cfg); simpl.
  - destruct rp.
    + destruct (CheckPathReusable c) as [[|]|]; simpl.
      * destruct (TrimHistoryPath c frame) as [[trimmed f]|]; simpl;
          [|discriminate].
        intro H. injection H as <- <- <-. eexists. split; reflexivity.
      * intro H. injection H as <- <- <-. eexists. split; reflexivity.
      * discriminate.
    + destruct (_ <? _)%Z; [|destruct (IsIgnoredBlockingObstacle c)];
        intro H; injection H as <- <- <-; eexists; split; reflexivity.
  - intro H. injection H as <- <- <-. eexists. split; reflexivity.
Qed.

(** C10, as amended. Observability counters: as long as the [int] counters
    do not overflow, a [Process] invocation that returns decreases neither
    counter and keeps [reusable_path_counter_ <= total_path_counter_]; it
    increments [total_path_counter_] by exactly one when reuse is enabled by
    configuration and leaves both counters alone when it is not; it
    increments [reusable_path_counter_] (by one) exactly when the collision
    check accepts a reuse attempt; and the values of the counters have no
    influence on the flag, the frame or what the cycle does. *)
Theorem Process_counters (cfg : PathReuseDeciderConfig) (c : Cycle)
        (frame : Frame) (ctx ctx' : Context) (frame' : Frame)
        (events : list Event) :
  (0 <= reusable_path_counter_ ctx <= total_path_counter_ ctx)%Z ->
  (total_path_counter_ ctx < INT_MAX)%Z ->
  Process cfg c frame ctx = Ok (ctx', frame', events) ->
  (reusable_path_counter_ ctx <= reusable_path_counter_ ctx')%Z /\
  (total_path_counter_ ctx <= total_path_counter_ ctx')%Z /\
  (0 <= reusable_path_counter_ ctx' <= total_path_counter_ ctx')%Z /\
  (reuse_path cfg = true ->
   total_path_counter_ ctx' = (total_path_counter_ ctx + 1)%Z) /\
  (reuse_path cfg = false ->
   total_path_counter_ ctx' = total_path_counter_ ctx /\
   reusable_path_counter_ ctx' = reusable_path_counter_ ctx) /\
  (reusable_path_counter_ ctx' = (reusable_path_counter_ ctx + 1)%Z <->
   reuse_path cfg = true /\ reused_path ctx = true /\
   CheckPathReusable c = Ok true) /\
  (reusable_path_counter_ ctx' = reusable_path_counter_ ctx <->
   ~ (reuse_path cfg = true /\ reused_path ctx = true /\
      CheckPathReusable c = Ok true)) /\
  (forall r t : Z,
      exists ctx2 : Context,
        Process cfg c frame (MkContext (reused_path ctx) r t)
        = Ok (ctx2, frame', events) /\
        reused_path ctx2 = reused_path ctx').
Proof.
  intros Hinv Hmax Hrun.
  destruct (Process_counters_step _ _ _ _ _ _ _ Hrun) as [Htotal Hreuse].
  assert (Ht1 : incr_int (total_path_counter_ ctx)
                = (total_path_counter_ ctx + 1)%Z).
  { apply incr_int_no_overflow. unfold INT_MIN, INT_MAX in *. lia. }
  assert (Hr1 : incr_int (reusable_path_counter_ ctx)
                = (reusable_path_counter_ ctx + 1)%Z).
  { apply incr_int_no_overflow. unfold INT_MIN, INT_MAX in *. lia. }
  rewrite Ht1 in Htotal. rewrite Hr1 in Hreuse.
  assert (Hlast : forall r t : Z,
             exists ctx2 : Context,
               Process cfg c frame (MkContext (reused_path ctx) r t)
               = Ok (ctx2, frame', events) /\
               reused_path ctx2 = reused_path ctx').
  { intros r t. exact (Process_ignores_counters _ _ _ _ _ _ _ r t Hrun). }
  unfold INT_MAX in Hmax.
  destruct Hreuse as [(Hcfg & Hon & Hacc & Hr) | (Hnot & Hr)].
  - rewrite Hcfg in Htotal.
    split; [lia|]. split; [lia|]. split; [lia|].
    split; [intros _; exact Htotal|].
    split; [intro H; congruence|].
    split; [split; [intros _; repeat split; assumption | intros _; exact Hr]|].
    split; [|exact Hlast].
    split; [intro H; exfalso; lia|].
    intro H. exfalso. apply H. repeat split; assumption.
  - split; [lia|].
    split; [destruct (reuse_path cfg); lia|].
    split; [destruct (reuse_path cfg); lia|].
    split; [intro H; rewrite H in Htotal; exact Htotal|].
    split; [intro H; rewrite H in Htotal; split; assumption|].
    split; [split; [intro H; exfalso; lia | intro H; exfalso; exact (Hnot H)]|].
    split; [|exact Hlast].
    split; [intros _; exact Hnot | intros _; exact Hr].
Qed.

Lemma Process_counters_witness :
  Process Samples.enabled Samples.filtered_only Samples.fresh_frame
          Samples.reuse_on
  = Ok (MkContext true 4 8, Samples.fresh_frame,
        [CalledCheckPathReusable; CalledTrimHistoryPath; ReportedFailedToTrim])
  /\ (3 <= 4)%Z /\ (7 <= 8)%Z /\ (0 <= 4 <= 8)%Z /\
  (reuse_path Samples.enabled = true -> 8 = (7 + 1))%Z /\
  (4 = 3 + 1 <->
   reuse_path Samples.enabled = true /\ reused_path Samples.reuse_on = true /\
   CheckPathReusable Samples.filtered_only = Ok true)%Z.
Proof.
  assert (Hrun : Process Samples.enabled Samples.filtered_only
                         Samples.fresh_frame Samples.reuse_on
                 = Ok (MkContext true 4 8, Samples.fresh_frame,
                       [CalledCheckPathReusable; CalledTrimHistoryPath;
                        ReportedFailedToTrim])).
  { vm_compute. reflexivity. }
  assert (Hinv : (0 <= reusable_path_counter_ Samples.reuse_on
                  <= total_path_counter_ Samples.reuse_on)%Z).
  { simpl. lia. }
  assert (Hmax : (total_path_counter_ Samples.reuse_on < INT_MAX)%Z).
  { reflexivity. }
  destruct (@Process_counters _ _ _ _ _ _ _ Hinv Hmax Hrun)
    as (H1 & H2 & H3 & H4 & _ & H6 & _).
  split; [exact Hrun|].
  split; [exact H1|]. split; [exact H2|]. split; [exact H3|].
  split; [exact H4 | exact H6].
Defined.

(** C10, as stated, fails: with reuse disabled by configuration [Process]
    returns before the increment, so one invocation leaves
    [total_path_counter_] as it was. *)
Lemma Process_counters_counterexample :
  Process Samples.disabled Samples.first_cycle Samples.fresh_frame
          Samples.reuse_off
  = Ok (Samples.reuse_off, Samples.fresh_frame, []) /\
  ~ increments_total_by_one Samples.disabled Samples.first_cycle
      Samples.fresh_frame Samples.reuse_off.
Proof.
  split; [reflexivity|].
  intro H. specialize (H _ _ _ eq_refl). discriminate H.
Qed.

(** Over a run from counters [0 <= reusable <= total] that leaves room
    below [INT_MAX], neither counter decreases and the order between them
    is kept. *)
Lemma run_cycles_counters (cfg : PathReuseDeciderConfig)
      (cycles : list (Cycle * Frame)) :
  forall (ctx ctx' : Context) (outs : list (Frame * list Event)),
    (0 <= reusable_path_counter_ ctx <= total_path_counter_ ctx)%Z ->
    (total_path_counter_ ctx + Z.of_nat (List.length cycles) <= INT_MAX)%Z ->
    run_cycles cfg cycles ctx = Ok (ctx', outs) ->
    (reusable_path_counter_ ctx <= reusable_path_counter_ ctx')%Z /\
    (total_path_counter_ ctx <= total_path_counter_ ctx')%Z /\
    (0 <= reusable_path_counter_ ctx' <= total_path_counter_ ctx')%Z.
Proof.
  induction cycles as [|[c frame] rest IH]; intros ctx ctx' outs Hinv Hroom Hrun.
  - simpl in Hrun. injection Hrun as <- _. lia.
  - simpl in Hrun.
    destruct (Process cfg c frame ctx) as [[[ctx1 frame1] events]|] eqn:Hstep;
      simpl in Hrun; [|discriminate].
    destruct (run_cycles cfg rest ctx1) as [[ctx2 outs2]|] eqn:Hrest;
      simpl in Hrun; [|discriminate].
    injection Hrun as <- _.
    destruct (Process_counters_step _ _ _ _ _ _ _ Hstep) as [Htotal Hreuse].
    change (List.length ((c, frame) :: rest)) with (S (List.length rest)) in Hroom.
    rewrite Nat2Z.inj_succ in Hroom. unfold INT_MAX in Hroom.
    assert (Ht1 : incr_int (total_path_counter_ ctx)
                  = (total_path_counter_ ctx + 1)%Z).
    { apply incr_int_no_overflow. unfold INT_MIN, INT_MAX. lia. }
    assert (Hr1 : incr_int (reusable_path_counter_ ctx)
                  = (reusable_path_counter_ ctx + 1)%Z).
    { apply incr_int_no_overflow. unfold INT_MIN, INT_MAX. lia. }
    rewrite Ht1 in Htotal. rewrite Hr1 in Hreuse.
    assert (Hstep_inv :
              (reusable_path_counter_ ctx <= reusable_path_counter_ ctx1)%Z /\
              (total_path_counter_ ctx <= total_path_counter_ ctx1
               <= total_path_counter_ ctx + 1)%Z /\
              (0 <= reusable_path_counter_ ctx1 <= total_path_counter_ ctx1)%Z).
    { destruct Hreuse as [(Hcfg & _ & _ & Hr) | (_ & Hr)].
      - rewrite Hcfg in Htotal. lia.
      - destruct (reuse_path cfg); lia. }
    destruct (IH ctx1 ctx2 outs2) as (H1 & H2 & H3);
      [lia | unfold INT_MAX; lia | exact Hrest | lia].
Qed.

(* ------------------------------------------------------------------ *)
(** ** The trimming loop *)

Lemma behind_adc_lt (rl : ReferenceLine) (adc : Q) (p : PathPoint) :
  behind_adc rl adc p = true <-> point_sl_s rl p < adc.
Proof. apply Qltb_lt. Qed.

(** [path_start_index] counts the points behind the vehicle. *)
Lemma trim_steps_index (rl : ReferenceLine) (adc : Q)
      (points : list PathPoint) :
  forall v : TrimVars,
    path_start_index (fold_left (trim_step rl adc) points v) =
    (path_start_index v + List.length (filter (behind_adc rl adc) points))%nat.
Proof.
  induction points as [|p rest IH]; intro v.
  - simpl. lia.
  - cbn [fold_left filter]. rewrite IH. unfold trim_step.
    fold (point_sl_s rl p). fold (behind_adc rl adc p).
    destruct (behind_adc rl adc p); simpl; lia.
Qed.

Lemma filter_length_all {A : Type} (f : A -> bool) (l : list A) :
  (List.length (filter f l) <= List.length l)%nat /\
  (List.length (filter f l) = List.length l <->
   Forall (fun a => f a = true) l).
Proof.
  induction l as [|a l [IHle IHeq]]; simpl.
  - split; [lia|]. split; [constructor | reflexivity].
  - destruct (f a) eqn:E; simpl.
    + split; [lia|]. split.
      * intro H. constructor; [exact E | apply IHeq; lia].
      * intro H. inversion H; subst. f_equal. apply IHeq. assumption.
    + split; [lia|]. split.
      * intro H. exfalso. lia.
      * intro H. inversion H; subst. congruence.
Qed.

(** The anchor access [history_path[path_start_index]] leaves the vector
    exactly when every point of the previous path is behind the vehicle,
    the empty path included. *)
Lemma TrimHistoryPath_out_of_range_iff (c : Cycle) (frame : Frame) :
  TrimHistoryPath c frame = OutOfRange <->
  exists history_path : DiscretizedPath,
    history_frame c = Some history_path /\
    Forall (fun q => point_sl_s (reference_line c) q < adc_s c) history_path.
Proof.
  unfold TrimHistoryPath, trim_loop, at_index.
  fold (GetADCSLPoint c). fold (adc_s c).
  destruct (history_frame c) as [history_path|].
  - rewrite trim_steps_index. simpl.
    destruct (filter_length_all (behind_adc (reference_line c) (adc_s c))
                                history_path) as [Hle Heq].
    destruct (nth_error history_path _) as [anchor|] eqn:Hnth; simpl.
    + split; [discriminate|]. intros (hp & Hhp & Hall).
      injection Hhp as <-.
      assert (Hlt : (List.length (filter (behind_adc (reference_line c) (adc_s c))
                                         history_path)
                     < List.length history_path)%nat).
      { apply nth_error_Some. rewrite Hnth. discriminate. }
      assert (Hfull : Forall (fun a => behind_adc (reference_line c) (adc_s c) a = true)
                             history_path).
      { eapply Forall_impl; [|exact Hall]. intros q Hq.
        apply behind_adc_lt. exact Hq. }
      apply Heq in Hfull. lia.
    + split; [|reflexivity]. intros _. exists history_path.
      split; [reflexivity|].
      apply nth_error_None in Hnth.
      assert (Hfull : List.length (filter (behind_adc (reference_line c) (adc_s c))
                                          history_path)
                      = List.length history_path) by lia.
      apply Heq in Hfull.
      eapply Forall_impl; [|exact Hfull]. intros q Hq.
      apply behind_adc_lt. exact Hq.
  - split; [discriminate|]. intros (hp & Hhp & _). discriminate Hhp.
Qed.

(* ------------------------------------------------------------------ *)
(** ** Trim re-basing *)

(** C2. Trim re-basing, at an input where the code departs from it. On a
    previous path whose points project to [s] = 100, 110, 120, 130 and
    carry arc lengths 0, 10, 20, 30, with the vehicle at [s = 115], the
    last point behind the vehicle is the second one (index 1, arc length
    10).  [path_start_index] counts the points behind the vehicle, so the
    anchor is the third point, which the output then holds twice; and
    [path_start_s] is the curvilinear 110, which is subtracted from arc
    lengths: the [s] values of the trimmed path are 20, -90, -80, and the
    path is not the one the design document describes. *)
Theorem TrimHistoryPath_rebasing_defect :
  spec_path_start_index (reference_line Samples.offset_path)
                        (adc_s Samples.offset_path) Samples.offset_points
  = Some 1%nat /\
  TrimHistoryPath Samples.offset_path Samples.fresh_frame
  = Ok (true,
        MkFrame [ Samples.point_at 120 20;
                  Samples.point_at 120 (-90);
                  Samples.point_at 130 (-80) ]) /\
  ~ Sorted Qle [20; -90; -80] /\
  ~ trim_rebasing_as_worded Samples.offset_path Samples.fresh_frame.
Proof.
  split; [reflexivity|].
  split; [reflexivity|].
  split.
  - intro H. inversion H as [|a l _ Hhd]; subst.
    inversion Hhd as [|b l' Hle]; subst.
    revert Hle. unfold Qle. simpl. lia.
  - intro H.
    destruct (H Samples.offset_points 1%nat (Samples.point_at 110 10)
                eq_refl eq_refl eq_refl)
      as (rest & originals & Htrim & _).
    vm_compute in Htrim. discriminate Htrim.
Qed.

(* ------------------------------------------------------------------ *)
(** ** The anchor access *)

(** C8. The anchor access [history_path[path_start_index]] of
    [TrimHistoryPath] is outside the previous path when the path is empty
    and when every point of it is behind the vehicle; with no obstacle to
    reject the path, [Process] reaches that access from a cycle entered
    with [reused_path] true, and no failure is reported. *)
Theorem TrimHistoryPath_anchor_out_of_range :
  path_start_index
    (trim_loop (reference_line Samples.empty_history)
               (adc_s Samples.empty_history) []) = 0%nat /\
  TrimHistoryPath Samples.empty_history Samples.fresh_frame = OutOfRange /\
  path_start_index
    (trim_loop (reference_line Samples.all_behind)
               (adc_s Samples.all_behind)
               [Samples.point_at 0 0; Samples.point_at 10 10]) = 2%nat /\
  TrimHistoryPath Samples.all_behind Samples.fresh_frame = OutOfRange /\
  CheckPathReusable Samples.empty_history = Ok true /\
  Process Samples.enabled Samples.empty_history Samples.fresh_frame
          Samples.reuse_on = OutOfRange.
Proof.
  repeat split; reflexivity.
Qed.

(* ------------------------------------------------------------------ *)
(** ** Projection failures *)

Lemma back_nonempty {A : Type} (pre : list A) (a : A) (post : list A) :
  back (pre ++ a :: post) = Ok (last (pre ++ a :: post) a).
Proof.
  unfold back.
  destruct (exists_last (l := pre ++ a :: post)) as (l' & z & Heq).
  { destruct pre; discriminate. }
  rewrite Heq, rev_app_distr, last_last. reflexivity.
Qed.

(** A corner that does not project makes the corner loop reject, at that
    corner or at an earlier one. *)
Lemma corners_pass_failure (c : Cycle) (polygons : list Polygon2d)
      (corners : list Vec2d) (corner : Vec2d) :
  In corner corners ->
  fst (XYToSL (reference_line c) corner) = false ->
  corners_pass c polygons corners = false.
Proof.
  induction corners as [|k rest IH]; simpl; intros Hin Hfail.
  - contradiction.
  - destruct (XYToSL (reference_line c) k) as [ok sl] eqn:Hk.
    destruct ok; simpl; [|reflexivity].
    destruct (in_some_polygon c polygons _); [reflexivity|].
    destruct Hin as [-> | Hin].
    + rewrite Hk in Hfail. discriminate Hfail.
    + exact (IH Hin Hfail).
Qed.

Lemma tail_reserve_not_reached (e sq : Q) :
  10 <= e - sq ->
  Qltb (e - sq)
       (inject_Z kNumExtraTailBoundPoint * kPathBoundsDeciderResolution)
  = false.
Proof.
  intro H. apply Qltb_ge.
  apply Qle_trans with (y := 10); [discriminate | exact H].
Qed.

(** A rejection at a point is a rejection of the whole scan when the scan
    does not stop before that point. *)
Lemma scan_rejects_after (c : Cycle) (polygons : list Polygon2d)
      (a e : Q) (pre : list PathPoint) (p : PathPoint)
      (post : list PathPoint) :
  Forall (fun q => 10 <= e - point_sl_s (reference_line c) q) pre ->
  scan_history_path c polygons a e (p :: post) = false ->
  scan_history_path c polygons a e (pre ++ p :: post) = false.
Proof.
  intros Hpre Hp. induction Hpre as [|q pre Hq _ IH].
  - exact Hp.
  - cbn [app scan_history_path]. fold (point_sl_s (reference_line c) q).
    rewrite (tail_reserve_not_reached _ _ Hq).
    destruct (Qltb (point_sl_s (reference_line c) q) (a - kSBuffer));
      [exact IH|].
    destruct (corners_pass c polygons (GetAllCorners c q));
      [exact IH | reflexivity].
Qed.

(** The trimmer reads only the points [XYToSL] writes, never its flags. *)
Lemma trim_loop_ignores_flags (rl rl' : ReferenceLine) (adc : Q)
      (points : list PathPoint) :
  (forall v : Vec2d, snd (XYToSL rl' v) = snd (XYToSL rl v)) ->
  trim_loop rl' adc points = trim_loop rl adc points.
Proof.
  intro Hsame. unfold trim_loop. generalize TrimVars_init.
  induction points as [|p rest IH]; intro v; simpl.
  - reflexivity.
  - rewrite IH. f_equal. unfold trim_step, XYToSL_unchecked.
    rewrite Hsame. reflexivity.
Qed.

(** C4, as amended. A failed conversion of a bounding-box corner makes
    [IsCollisionFree] return false: when an obstacle survives the filter
    and the scan does not stop before a pose [p] that is not behind the
    vehicle, a corner of [p] that does not project gives the result false.
    [TrimHistoryPath] does not look at the outcome of a conversion: its
    result is the same on any reference line that writes the same points,
    whatever flags it returns, and it reports failure only when the history
    holds no previous frame. *)
Theorem projection_failure_handling (c : Cycle) (frame : Frame) :
  (forall (o : Obstacle) (pre : list PathPoint) (p : PathPoint)
          (post : list PathPoint) (corner : Vec2d),
      In o (obstacles c) ->
      obstacle_filtered (adc_s c) o = false ->
      history_frame c = Some (pre ++ p :: post) ->
      Forall (fun q =>
                10 <= point_sl_s (reference_line c) (last (pre ++ p :: post) p)
                      - point_sl_s (reference_line c) q)
             (pre ++ [p]) ->
      adc_s c - (1 # 2) <= point_sl_s (reference_line c) p ->
      In corner (GetAllCorners c p) ->
      fst (XYToSL (reference_line c) corner) = false ->
      IsCollisionFree c = Ok false) /\
  (forall rl' : ReferenceLine,
      (forall v : Vec2d,
          snd (XYToSL rl' v) = snd (XYToSL (reference_line c) v)) ->
      TrimHistoryPath (set_reference_line c rl') frame
      = TrimHistoryPath c frame) /\
  (forall frame' : Frame,
      TrimHistoryPath c frame = Ok (false, frame') ->
      history_frame c = None).
Proof.
  split; [|split].
  - intros o pre p post corner Hin Hkeep Hhist Hreach Hnear Hcorner Hfail.
    pose proof (obstacle_polygons_survivor _ _ _ Hin Hkeep) as Hne.
    unfold IsCollisionFree. fold (GetADCSLPoint c). fold (adc_s c).
    destruct (obstacle_polygons (adc_s c) (obstacles c)) as [|poly polys];
      [contradiction Hne; reflexivity|].
    rewrite Hhist, back_nonempty. simpl bind. f_equal.
    set (last_point := last (pre ++ p :: post) p) in *.
    change (sl_s (XYToSL_unchecked (reference_line c)
                    (MkVec2d (x last_point) (y last_point))))
      with (point_sl_s (reference_line c) last_point).
    apply Forall_app in Hreach. destruct Hreach as [Hpre Hp].
    inversion Hp as [|? ? Hp' _]; subst.
    apply scan_rejects_after; [exact Hpre|].
    cbn [scan_history_path]. fold (point_sl_s (reference_line c) p).
    rewrite (tail_reserve_not_reached _ _ Hp').
    apply Qltb_ge in Hnear. unfold kSBuffer. rewrite Hnear.
    rewrite (corners_pass_failure c _ _ corner Hcorner Hfail). reflexivity.
  - intros rl' Hsame. unfold TrimHistoryPath.
    change (history_frame (set_reference_line c rl')) with (history_frame c).
    change (reference_line (set_reference_line c rl')) with rl'.
    change (adc_position (set_reference_line c rl')) with (adc_position c).
    destruct (history_frame c) as [history_path|]; [|reflexivity].
    rewrite (trim_loop_ignores_flags _ _ _ _ Hsame).
    unfold XYToSL_unchecked. rewrite Hsame. reflexivity.
  - intros frame'. unfold TrimHistoryPath.
    destruct (history_frame c) as [history_path|]; [|reflexivity].
    destruct (at_index _ _); simpl; discriminate.
Qed.

Lemma projection_failure_handling_witness :
  fst (XYToSL (reference_line Samples.narrow_road) (MkVec2d 22 1)) = false /\
  IsCollisionFree Samples.narrow_road = Ok false /\
  TrimHistoryPath (set_reference_line Samples.narrow_road Samples.straight_line)
                  Samples.fresh_frame
  = TrimHistoryPath Samples.narrow_road Samples.fresh_frame.
Proof.
  destruct (projection_failure_handling Samples.narrow_road Samples.fresh_frame)
    as (Hcheck & Htrim & _).
  split; [reflexivity|]. split.
  - apply (Hcheck Samples.parked_car
                  [Samples.point_at 0 0; Samples.point_at 10 10]
                  (Samples.point_at 20 20)
                  [Samples.point_at 30 30; Samples.point_at 40 40;
                   Samples.point_at 50 50; Samples.point_at 60 60]
                  (MkVec2d (20 + 2) (0 + 1))).
    + left. reflexivity.
    + reflexivity.
    + reflexivity.
    + repeat constructor; discriminate.
    + discriminate.
    + left. reflexivity.
    + reflexivity.
  - apply Htrim. intro v. reflexivity.
Defined.

(** C4, as stated, fails. On a reference line on which no point projects,
    with a parked car ahead and a previous path in the history, every
    conversion the two operations make fails, yet [IsCollisionFree] returns
    true and [TrimHistoryPath] returns true with a trimmed path. *)
Lemma projection_failure_counterexample :
  (forall v : Vec2d,
      fst (XYToSL (reference_line Samples.nothing_projects) v) = false) /\
  obstacle_filtered (adc_s Samples.nothing_projects) Samples.parked_car
  = false /\
  IsCollisionFree Samples.nothing_projects = Ok true /\
  TrimHistoryPath Samples.nothing_projects Samples.fresh_frame
  = Ok (true,
        MkFrame [ Samples.point_at 0 0; Samples.point_at 0 0;
                  Samples.point_at 10 10; Samples.point_at 20 20;
                  Samples.point_at 30 30 ]) /\
  ~ fails_closed Samples.nothing_projects Samples.fresh_frame.
Proof.
  split; [intro v; reflexivity|].
  split; [reflexivity|].
  split; [reflexivity|].
  split; [reflexivity|].
  intros [Hcheck _]. discriminate Hcheck.
Qed.

(* ------------------------------------------------------------------ *)
(** ** Corner sampling *)

(** C9. The collision test looks only at the four projected corners of the
    vehicle's bounding box at each path point: there is a cycle with a
    static, non-virtual obstacle, large enough to survive the filter and
    ahead of the vehicle, tested by a point-in-polygon test that holds
    exactly for the points of its closed box, such that at every pose the
    scan samples (there is one) the projected corners of the vehicle span a
    rectangle with the obstacle's box strictly inside it, so that no corner
    lies in the box while the footprint covers it, and on which
    [IsCollisionFree] returns true. *)
Theorem IsCollisionFree_samples_corners_only :
  exists (c : Cycle) (o : Obstacle) (history_path : DiscretizedPath)
         (last_point : PathPoint),
    obstacles c = [o] /\
    IsStatic o = true /\ IsVirtual o = false /\
    obstacle_filtered (adc_s c) o = false /\
    adc_s c < start_s (PerceptionSLBoundary o) /\
    history_frame c = Some history_path /\
    back history_path = Ok last_point /\
    (forall pt : Vec2d,
        IsPointIn c (obstacle_polygon o) pt = true <->
        (start_s (PerceptionSLBoundary o) <= vx pt /\
         vx pt <= end_s (PerceptionSLBoundary o)) /\
        (start_l (PerceptionSLBoundary o) <= vy pt /\
         vy pt <= end_l (PerceptionSLBoundary o))) /\
    sampled_poses (reference_line c) (adc_s c)
                  (point_sl_s (reference_line c) last_point) history_path
    <> [] /\
    Forall (fun pose =>
              corners_enclose
                (map (projected_corner (reference_line c))
                     (GetAllCorners c pose))
                (PerceptionSLBoundary o) /\
              Forall (fun corner =>
                        IsPointIn c (obstacle_polygon o)
                                  (projected_corner (reference_line c) corner)
                        = false)
                     (GetAllCorners c pose))
           (sampled_poses (reference_line c) (adc_s c)
                          (point_sl_s (reference_line c) last_point)
                          history_path) /\
    IsCollisionFree c = Ok true.
Proof.
  exists Samples.enclosed_crate, Samples.crate,
         [Samples.point_at 20 20; Samples.point_at 40 40],
         (Samples.point_at 40 40).
  split; [reflexivity|].
  split; [reflexivity|]. split; [reflexivity|].
  split; [reflexivity|]. split; [reflexivity|].
  split; [reflexivity|]. split; [reflexivity|].
  split.
  { intro pt. cbn [IsPointIn Samples.enclosed_crate Samples.cycle_with].
    unfold Samples.point_in_box, obstacle_polygon, Samples.Qleb_between.
    cbn [PerceptionSLBoundary Samples.crate start_s end_s start_l end_l vx vy].
    rewrite andb_true_iff, !orb_true_iff, !andb_true_iff, !Qle_bool_iff.
    split.
    - intros [[Hs | Hs] [Hl | Hl]]; split; split; lra.
    - intros [Hs Hl]. split; left; assumption. }
  split; [discriminate|].
  split; [|reflexivity].
  constructor; [|constructor].
  split.
  - exists (20 - 2), (20 + 2), (0 - 1), (0 + 1).
    split; [reflexivity|]. repeat split; try reflexivity; discriminate.
  - repeat constructor.
Qed.

(* ------------------------------------------------------------------ *)
(** ** Sorting *)

Lemma sort_insert_perm (v : Q) (l : list Q) :
  Permutation (v :: l) (sort_insert v l).
Proof.
  induction l as [|h rest IH]; simpl.
  - apply Permutation_refl.
  - destruct (Qltb v h).
    + apply Permutation_refl.
    + eapply perm_trans; [apply perm_swap|].
      apply perm_skip. exact IH.
Qed.

Lemma std_sort_perm (l : list Q) : Permutation l (std_sort l).
Proof.
  induction l as [|v rest IH]; simpl.
  - apply perm_nil.
  - eapply perm_trans; [apply perm_skip; exact IH|].
    apply sort_insert_perm.
Qed.

Lemma sort_insert_sorted (v : Q) (l : list Q) :
  Sorted Qle l -> Sorted Qle (sort_insert v l).
Proof.
  induction 1 as [|h rest Hsorted IH Hhd]; simpl.
  - repeat constructor.
  - destruct (Qltb v h) eqn:E.
    + apply Qltb_lt in E.
      constructor; [constructor; assumption|].
      constructor. apply Qlt_le_weak. exact E.
    + apply Qltb_ge in E. constructor; [exact IH|].
      destruct Hhd as [|k rest Hhk]; simpl.
      * constructor. exact E.
      * destruct (Qltb v k); constructor; assumption.
Qed.

Lemma std_sort_sorted (l : list Q) : Sorted Qle (std_sort l).
Proof.
  induction l as [|v rest IH]; simpl.
  - constructor.
  - apply sort_insert_sorted. exact IH.
Qed.

Lemma std_sort_In (l : list Q) (v : Q) : In v (std_sort l) <-> In v l.
Proof.
  split; intro H.
  - eapply Permutation_in; [apply Permutation_sym, std_sort_perm | exact H].
  - eapply Permutation_in; [apply std_sort_perm | exact H].
Qed.

(* ------------------------------------------------------------------ *)
(** ** The nearest stop *)

(** On a sorted vector the loop stops at the least value that is not below
    [adc]. *)
Lemma nearest_stop_sorted (adc nearest : Q) (positions : list Q) :
  Sorted Qle positions ->
  (Forall (fun e => e < adc) positions /\
   nearest_stop adc nearest positions = nearest) \/
  (In (nearest_stop adc nearest positions) positions /\
   adc <= nearest_stop adc nearest positions /\
   Forall (fun e => adc <= e -> nearest_stop adc nearest positions <= e)
          positions).
Proof.
  intro Hsorted. apply Sorted_StronglySorted in Hsorted.
  2:{ intros a b c. apply Qle_trans. }
  induction Hsorted as [|p rest Hrest IH Hall]; simpl.
  - left. split; [constructor | reflexivity].
  - destruct (Qltb p adc) eqn:E.
    + apply Qltb_lt in E. destruct IH as [[Hbelow Heq] | (Hin & Hge & Hmin)].
      * left. split; [constructor; assumption | exact Heq].
      * right. split; [right; exact Hin|]. split; [exact Hge|].
        constructor; [|exact Hmin]. intro Hp. exfalso. lra.
    + apply Qltb_ge in E. right.
      split; [left; reflexivity|]. split; [exact E|].
      constructor; [intros _; apply Qle_refl|].
      eapply Forall_impl; [|exact Hall]. intros e He _. exact He.
Qed.

(** The same for the sorted copy of any vector of positions. *)
Lemma nearest_stop_std_sort (adc nearest : Q) (positions : list Q) :
  let r := nearest_stop adc nearest (std_sort positions) in
  (Forall (fun e => e < adc) positions /\ r = nearest) \/
  (In r positions /\ adc <= r /\
   Forall (fun e => adc <= e -> r <= e) positions).
Proof.
  intro r.
  destruct (nearest_stop_sorted adc nearest (std_sort positions)
                                (std_sort_sorted positions))
    as [[Hbelow Heq] | (Hin & Hge & Hmin)].
  - left. split; [|exact Heq].
    apply Forall_forall. intros e He.
    rewrite Forall_forall in Hbelow. apply Hbelow. apply std_sort_In. exact He.
  - right. split; [apply std_sort_In; exact Hin|]. split; [exact Hge|].
    apply Forall_forall. intros e He.
    rewrite Forall_forall in Hmin. apply Hmin. apply std_sort_In. exact He.
Qed.

(** The nearest current stop is the least lane-blocking [start_s] that is
    not behind the vehicle. *)
Lemma nearest_current_stop_least (env : Surroundings) (c : Cycle) :
  let r := nearest_stop (adc_s c) (FLAGS_default_front_clear_distance env)
                        (GetCurrentStopObstacleS env c) in
  ((forall o, In o (obstacles c) -> IsLaneBlocking env o = true ->
              start_s (PerceptionSLBoundary o) < adc_s c) /\
   r = FLAGS_default_front_clear_distance env) \/
  ((exists o, In o (obstacles c) /\ IsLaneBlocking env o = true /\
              r = start_s (PerceptionSLBoundary o)) /\
   adc_s c <= r /\
   (forall o, In o (obstacles c) -> IsLaneBlocking env o = true ->
              adc_s c <= start_s (PerceptionSLBoundary o) ->
              r <= start_s (PerceptionSLBoundary o))).
Proof.
  cbv zeta. unfold GetCurrentStopObstacleS.
  pose proof (nearest_stop_std_sort
                (adc_s c) (FLAGS_default_front_clear_distance env)
                (map (fun o => start_s (PerceptionSLBoundary o))
                     (filter (IsLaneBlocking env) (obstacles c)))) as H.
  cbv zeta in H.
  set (r := nearest_stop _ _ _) in *.
  destruct H as [[Hbelow Heq] | (Hin & Hge & Hmin)].
  - left. split; [|exact Heq]. intros o Ho Hblock.
    rewrite Forall_forall in Hbelow. apply Hbelow.
    apply in_map_iff. exists o. split; [reflexivity|].
    apply filter_In. split; assumption.
  - right. split; [|split; [exact Hge|]].
    + apply in_map_iff in Hin. destruct Hin as (o & Ho & Hino).
      apply filter_In in Hino. destruct Hino as [Hino Hblock].
      exists o. repeat split; [exact Hino | exact Hblock | symmetry; exact Ho].
    + intros o Ho Hblock Hahead.
      rewrite Forall_forall in Hmin. apply Hmin; [|exact Hahead].
      apply in_map_iff. exists o. split; [reflexivity|].
      apply filter_In. split; assumption.
Qed.

(** X3. The nearest current stop [IsSameStopObstacles] compares is the
    [start_s] of a lane-blocking obstacle that is not behind the vehicle
    and no further than any other such obstacle, in whatever order the
    obstacles are listed; it is the default clear distance when every
    lane-blocking obstacle is behind the vehicle. *)
Theorem nearest_current_stop (env : Surroundings) (c : Cycle) :
  let r := nearest_stop (adc_s c) (FLAGS_default_front_clear_distance env)
                        (GetCurrentStopObstacleS env c) in
  ((forall o, In o (obstacles c) -> IsLaneBlocking env o = true ->
              start_s (PerceptionSLBoundary o) < adc_s c) /\
   r = FLAGS_default_front_clear_distance env) \/
  ((exists o, In o (obstacles c) /\ IsLaneBlocking env o = true /\
              r = start_s (PerceptionSLBoundary o)) /\
   adc_s c <= r /\
   (forall o, In o (obstacles c) -> IsLaneBlocking env o = true ->
              adc_s c <= start_s (PerceptionSLBoundary o) ->
              r <= start_s (PerceptionSLBoundary o))).
Proof.
  exact (nearest_current_stop_least env c).
Qed.

Lemma nearest_current_stop_witness :
  nearest_stop (adc_s Fixtures.car_and_truck) 300
               (GetCurrentStopObstacleS Fixtures.open_road
                                        Fixtures.car_and_truck)
  = start_s (PerceptionSLBoundary Samples.parked_car).
Proof.
  destruct (nearest_current_stop Fixtures.open_road Fixtures.car_and_truck)
    as [[Hbelow _] | ((o & Ho & _ & Heq) & _ & _)].
  - exfalso.
    assert (H : start_s (PerceptionSLBoundary Samples.parked_car)
                < adc_s Fixtures.car_and_truck).
    { apply Hbelow; [right; left; reflexivity | reflexivity]. }
    revert H. unfold Qlt. simpl. lia.
  - reflexivity.
Defined.

(* ------------------------------------------------------------------ *)
(** ** The obstacle comparator *)

Lemma Find_NoDup (items : list Obstacle) (o : Obstacle) :
  NoDup (map Id items) -> In o items -> Find items (Id o) = Some o.
Proof.
  unfold Find. induction items as [|h rest IH]; simpl; intros Hnodup Hin.
  - contradiction.
  - inversion Hnodup as [|? ? Hnotin Hrest]; subst.
    destruct Hin as [-> | Hin].
    + rewrite String.eqb_refl. reflexivity.
    + destruct (String.eqb (Id h) (Id o)) eqn:E.
      * apply String.eqb_eq in E. exfalso. apply Hnotin. rewrite E.
        apply in_map. exact Hin.
      * exact (IH Hrest Hin).
Qed.

Lemma same_obstacles_loop_true (env : Surroundings)
      (current_rl history_rl : ReferenceLine)
      (history_obstacles items : list Obstacle) :
  same_obstacles_loop env current_rl history_rl history_obstacles items = true
  <->
  Forall (fun o =>
            exists h : Obstacle,
              Find history_obstacles (Id o) = Some h /\
              IsStatic o = IsStatic h /\
              IsBlockingDrivingPathObstacle env current_rl o
              = IsBlockingDrivingPathObstacle env history_rl h)
         items.
Proof.
  induction items as [|o rest IH]; simpl.
  - split; [constructor | reflexivity].
  - destruct (Find history_obstacles (Id o)) as [h|] eqn:Hfind.
    + destruct (Bool.eqb (IsStatic o) (IsStatic h)) eqn:Es; simpl.
      * destruct (Bool.eqb (IsBlockingDrivingPathObstacle env current_rl o)
                           (IsBlockingDrivingPathObstacle env history_rl h))
          eqn:Eb; simpl.
        -- apply eqb_prop in Es. apply eqb_prop in Eb. rewrite IH. split.
           ++ intro Hrest. constructor; [|exact Hrest].
              exists h. repeat split; assumption.
           ++ intro Hall. inversion Hall; subst. assumption.
        -- split; [discriminate|]. intro Hall. inversion Hall as [|? ? Ho _]; subst.
           destruct Ho as (h' & Hh' & _ & Hb). rewrite Hfind in Hh'.
           injection Hh' as <-.
           rewrite Hb, eqb_reflx in Eb. discriminate Eb.
      * split; [discriminate|]. intro Hall. inversion Hall as [|? ? Ho _]; subst.
        destruct Ho as (h' & Hh' & Hs & _). rewrite Hfind in Hh'.
        injection Hh' as <-.
        rewrite Hs, eqb_reflx in Es. discriminate Es.
    + split; [discriminate|]. intro Hall. inversion Hall as [|? ? Ho _]; subst.
      destruct Ho as (h' & Hh' & _). rewrite Hfind in Hh'. discriminate Hh'.
Qed.

(** What [IsSameObstacles] requires to return true. *)
Lemma IsSameObstacles_accepts (env : Surroundings) (c : Cycle) :
  IsSameObstacles env c = Ok true <->
  history_frame c <> None /\
  exists (info : ReferenceLineInfo) (others : list ReferenceLineInfo),
    history_reference_line_info env = info :: others /\
    List.length (obstacles c) = List.length (info_obstacles info) /\
    Forall (fun o =>
              exists h : Obstacle,
                Find (info_obstacles info) (Id o) = Some h /\
                IsStatic o = IsStatic h /\
                IsBlockingDrivingPathObstacle env (reference_line c) o
                = IsBlockingDrivingPathObstacle env (info_reference_line info) h)
           (obstacles c).
Proof.
  unfold IsSameObstacles.
  destruct (history_frame c) as [path|].
  - destruct (history_reference_line_info env) as [|info others]; simpl.
    + split; [discriminate|]. intros (_ & info & others & H & _). discriminate H.
    + destruct (Nat.eqb _ _) eqn:Elen; simpl.
      * apply Nat.eqb_eq in Elen. split.
        -- intro H. injection H as H. split; [discriminate|].
           exists info, others. split; [reflexivity|]. split; [exact Elen|].
           apply same_obstacles_loop_true. exact H.
        -- intros (_ & info' & others' & Heq & _ & Hall).
           injection Heq as <- <-. f_equal.
           apply same_obstacles_loop_true. exact Hall.
      * apply Nat.eqb_neq in Elen. split; [discriminate|].
        intros (_ & info' & others' & Heq & Hlen & _).
        injection Heq as <- <-. contradiction.
  - split; [discriminate|]. intros (H & _). contradiction H. reflexivity.
Qed.

(** X7. [IsSameObstacles] returns true exactly when a previous frame
    exists, the current obstacle list is as long as the obstacle list of
    the previous frame's first reference line, and every current obstacle
    has an obstacle of the same id there with the same static flag and the
    same blocking verdict (each on its own reference line). *)
Theorem IsSameObstacles_true_iff (env : Surroundings) (c : Cycle) :
  IsSameObstacles env c = Ok true <->
  history_frame c <> None /\
  exists (info : ReferenceLineInfo) (others : list ReferenceLineInfo),
    history_reference_line_info env = info :: others /\
    List.length (obstacles c) = List.length (info_obstacles info) /\
    Forall (fun o =>
              exists h : Obstacle,
                Find (info_obstacles info) (Id o) = Some h /\
                IsStatic o = IsStatic h /\
                IsBlockingDrivingPathObstacle env (reference_line c) o
                = IsBlockingDrivingPathObstacle env (info_reference_line info) h)
           (obstacles c).
Proof.
  exact (IsSameObstacles_accepts env c).
Qed.

(** X8. [IsSameObstacles] leaves a list ([front()] of an empty
    [reference_line_info()]) exactly when a previous frame exists and
    holds no reference line info; without a previous frame it returns
    false. *)
Theorem IsSameObstacles_out_of_range_iff (env : Surroundings) (c : Cycle) :
  (IsSameObstacles env c = OutOfRange <->
   history_frame c <> None /\ history_reference_line_info env = []) /\
  (history_frame c = None -> IsSameObstacles env c = Ok false).
Proof.
  unfold IsSameObstacles. destruct (history_frame c) as [path|]; split.
  - destruct (history_reference_line_info env) as [|info others]; simpl.
    + split; [intros _; split; [discriminate | reflexivity] | reflexivity].
    + destruct (negb _); (split; [discriminate | intros [_ H]; discriminate H]).
  - discriminate.
  - split; [discriminate | intros [H _]; contradiction H; reflexivity].
  - reflexivity.
Qed.

(** X9. When the previous frame's first reference line is the current one
    and lists the current obstacles, and the obstacle ids are pairwise
    distinct, [IsSameObstacles] returns true. *)
Theorem IsSameObstacles_same_scene (env : Surroundings) (c : Cycle)
        (others : list ReferenceLineInfo) :
  history_frame c <> None ->
  history_reference_line_info env
  = MkReferenceLineInfo (reference_line c) (obstacles c) :: others ->
  NoDup (map Id (obstacles c)) ->
  IsSameObstacles env c = Ok true.
Proof.
  intros Hframe Hinfo Hnodup. apply IsSameObstacles_accepts.
  split; [exact Hframe|].
  exists (MkReferenceLineInfo (reference_line c) (obstacles c)), others.
  split; [exact Hinfo|]. split; [reflexivity|]. simpl.
  apply Forall_forall. intros o Ho. exists o.
  split; [apply Find_NoDup; assumption|]. split; reflexivity.
Qed.

Lemma IsSameObstacles_same_scene_witness :
  IsSameObstacles Fixtures.same_scene Fixtures.car_and_truck = Ok true.
Proof.
  apply (IsSameObstacles_same_scene Fixtures.same_scene Fixtures.car_and_truck []).
  - discriminate.
  - reflexivity.
  - repeat constructor; simpl; intuition discriminate.
Defined.

(** X10. When [IsSameObstacles] returns true and the current obstacle ids
    are pairwise distinct, the previous frame holds no other obstacle:
    every obstacle id of its first reference line is the id of a current
    obstacle. *)
Theorem IsSameObstacles_same_ids (env : Surroundings) (c : Cycle)
        (info : ReferenceLineInfo) (others : list ReferenceLineInfo) :
  IsSameObstacles env c = Ok true ->
  history_reference_line_info env = info :: others ->
  NoDup (map Id (obstacles c)) ->
  forall h : Obstacle,
    In h (info_obstacles info) ->
    exists o : Obstacle, In o (obstacles c) /\ Id o = Id h.
Proof.
  intros Hsame Hinfo Hnodup h Hh.
  apply IsSameObstacles_accepts in Hsame.
  destruct Hsame as (_ & info' & others' & Heq & Hlen & Hall).
  rewrite Hinfo in Heq. injection Heq as <- <-.
  assert (Hincl : incl (map Id (obstacles c)) (map Id (info_obstacles info))).
  { intros id Hid. apply in_map_iff in Hid. destruct Hid as (o & <- & Ho).
    rewrite Forall_forall in Hall. destruct (Hall o Ho) as (h' & Hfind & _).
    apply Find_Some in Hfind. destruct Hfind as [Hin <-].
    apply in_map. exact Hin. }
  assert (Hback : incl (map Id (info_obstacles info)) (map Id (obstacles c))).
  { apply NoDup_length_incl; [exact Hnodup | | exact Hincl].
    rewrite !length_map. rewrite Hlen. apply le_n. }
  specialize (Hback (Id h) (in_map Id _ _ Hh)).
  apply in_map_iff in Hback. destruct Hback as (o & Hid & Ho).
  exists o. split; assumption.
Qed.

Lemma IsSameObstacles_same_ids_witness :
  exists o : Obstacle,
    In o (obstacles Fixtures.car_and_truck) /\ Id o = Id Samples.parked_car.
Proof.
  apply (IsSameObstacles_same_ids
           Fixtures.same_scene Fixtures.car_and_truck
           (MkReferenceLineInfo Samples.straight_line
                                [Samples.far_truck; Samples.parked_car]) []).
  - vm_compute. reflexivity.
  - reflexivity.
  - repeat constructor; simpl; intuition discriminate.
  - right. left. reflexivity.
Defined.

(* ------------------------------------------------------------------ *)
(** ** What the collision checker accepts and rejects *)

Lemma obstacle_polygons_surviving (a : Q) (items : list Obstacle) :
  obstacle_polygons a items
  = map obstacle_polygon (surviving_obstacles a items).
Proof.
  unfold surviving_obstacles.
  induction items as [|o rest IH]; simpl; [reflexivity|].
  destruct (obstacle_filtered a o); simpl; [exact IH | f_equal; exact IH].
Qed.

Lemma surviving_obstacles_In (a : Q) (items : list Obstacle) (o : Obstacle) :
  In o (surviving_obstacles a items) <->
  In o items /\ obstacle_filtered a o = false.
Proof.
  unfold surviving_obstacles. rewrite filter_In, negb_true_iff. reflexivity.
Qed.

Lemma in_some_polygon_false (c : Cycle) (a : Q) (items : list Obstacle)
      (pt : Vec2d) :
  in_some_polygon c (obstacle_polygons a items) pt = false <->
  forall o, In o items -> obstacle_filtered a o = false ->
            IsPointIn c (obstacle_polygon o) pt = false.
Proof.
  unfold in_some_polygon. rewrite obstacle_polygons_surviving. split.
  - intros H o Ho Hkeep.
    destruct (IsPointIn c (obstacle_polygon o) pt) eqn:E; [|reflexivity].
    assert (Hex : existsb (fun poly => IsPointIn c poly pt)
                          (map obstacle_polygon (surviving_obstacles a items))
                  = true).
    { apply existsb_exists. exists (obstacle_polygon o).
      split; [|exact E]. apply in_map. apply surviving_obstacles_In.
      split; assumption. }
    congruence.
  - intro H.
    destruct (existsb _ _) eqn:E; [|reflexivity].
    apply existsb_exists in E. destruct E as (poly & Hpoly & Hin).
    apply in_map_iff in Hpoly. destruct Hpoly as (o & <- & Ho).
    apply surviving_obstacles_In in Ho. destruct Ho as [Ho Hkeep].
    rewrite (H o Ho Hkeep) in Hin. discriminate Hin.
Qed.

(** The corner loop runs to its end exactly when every corner projects and
    lies in no polygon. *)
Lemma corners_pass_true (c : Cycle) (polygons : list Polygon2d)
      (corners : list Vec2d) :
  corners_pass c polygons corners = true <->
  Forall (fun corner =>
            fst (XYToSL (reference_line c) corner) = true /\
            in_some_polygon c polygons
                            (projected_corner (reference_line c) corner)
            = false)
         corners.
Proof.
  induction corners as [|k rest IH]; simpl.
  - split; [constructor | reflexivity].
  - destruct (XYToSL (reference_line c) k) as [ok sl] eqn:Hx.
    assert (Hproj : projected_corner (reference_line c) k
                    = MkVec2d (sl_s sl) (sl_l sl)).
    { unfold projected_corner, XYToSL_unchecked. rewrite Hx. reflexivity. }
    destruct ok; simpl.
    + destruct (in_some_polygon c polygons (MkVec2d (sl_s sl) (sl_l sl))) eqn:E.
      * split; [discriminate|]. intro H. inversion H as [|? ? [_ Hk] _]; subst.
        rewrite Hproj in Hk. congruence.
      * rewrite IH. split.
        -- intro H. constructor; [|exact H].
           split; [rewrite Hx; reflexivity | rewrite Hproj; exact E].
        -- intro H. inversion H; subst. assumption.
    + split; [discriminate|]. intro H. inversion H as [|? ? [Hk _] _]; subst.
      rewrite Hx in Hk. discriminate Hk.
Qed.

(** X12. A sampled corner inside a surviving obstacle is always found:
    when the scan does not stop before a pose that is not behind the
    vehicle, and one bounding-box corner of that pose projects into the
    polygon of an obstacle that survives the filter, [IsCollisionFree]
    returns false. *)
Theorem IsCollisionFree_detects_corner (c : Cycle) (o : Obstacle)
        (pre : list PathPoint) (p : PathPoint) (post : list PathPoint)
        (corner : Vec2d) :
  In o (obstacles c) ->
  obstacle_filtered (adc_s c) o = false ->
  history_frame c = Some (pre ++ p :: post) ->
  Forall (fun q =>
            10 <= point_sl_s (reference_line c) (last (pre ++ p :: post) p)
                  - point_sl_s (reference_line c) q)
         (pre ++ [p]) ->
  adc_s c - (1 # 2) <= point_sl_s (reference_line c) p ->
  In corner (GetAllCorners c p) ->
  IsPointIn c (obstacle_polygon o) (projected_corner (reference_line c) corner)
  = true ->
  IsCollisionFree c = Ok false.
Proof.
  intros Hin Hkeep Hhist Hreach Hnear Hcorner Hhit.
  pose proof (obstacle_polygons_survivor _ _ _ Hin Hkeep) as Hne.
  assert (Hreject :
            corners_pass c (obstacle_polygons (adc_s c) (obstacles c))
                         (GetAllCorners c p) = false).
  { destruct (corners_pass _ _ _) eqn:E; [|reflexivity].
    apply corners_pass_true in E. rewrite Forall_forall in E.
    destruct (E corner Hcorner) as [_ Hclear].
    rewrite in_some_polygon_false in Hclear.
    rewrite (Hclear o Hin Hkeep) in Hhit. discriminate Hhit. }
  unfold IsCollisionFree. fold (GetADCSLPoint c). fold (adc_s c).
  destruct (obstacle_polygons (adc_s c) (obstacles c)) as [|poly polys];
    [contradiction Hne; reflexivity|].
  rewrite Hhist, back_nonempty. simpl bind. f_equal.
  set (last_point := last (pre ++ p :: post) p) in *.
  change (sl_s (XYToSL_unchecked (reference_line c)
                  (MkVec2d (x last_point) (y last_point))))
    with (point_sl_s (reference_line c) last_point).
  apply Forall_app in Hreach. destruct Hreach as [Hpre Hp].
  inversion Hp as [|? ? Hp' _]; subst.
  apply scan_rejects_after; [exact Hpre|].
  cbn [scan_history_path]. fold (point_sl_s (reference_line c) p).
  rewrite (tail_reserve_not_reached _ _ Hp').
  apply Qltb_ge in Hnear. unfold kSBuffer. rewrite Hnear.
  rewrite Hreject. reflexivity.
Qed.

Lemma IsCollisionFree_detects_corner_witness :
  IsCollisionFree Samples.parked_car_on_path = Ok false.
Proof.
  apply (IsCollisionFree_detects_corner
           Samples.parked_car_on_path Samples.parked_car
           [Samples.point_at 0 0; Samples.point_at 10 10;
            Samples.point_at 20 20; Samples.point_at 30 30]
           (Samples.point_at 40 40)
           [Samples.point_at 50 50; Samples.point_at 60 60]
           (MkVec2d (40 + 2) (0 + 1))).
  - left. reflexivity.
  - reflexivity.
  - reflexivity.
  - repeat constructor; discriminate.
  - discriminate.
  - left. reflexivity.
  - reflexivity.
Defined.

(** When [IsCollisionFree] reads [back()] of an empty path. *)
Lemma IsCollisionFree_reads_empty_path (c : Cycle) :
  IsCollisionFree c = OutOfRange <->
  (exists o, In o (obstacles c) /\ obstacle_filtered (adc_s c) o = false) /\
  history_frame c = Some [].
Proof.
  unfold IsCollisionFree. fold (GetADCSLPoint c). fold (adc_s c).
  pose proof (obstacle_polygons_surviving (adc_s c) (obstacles c)) as Hpolys.
  destruct (obstacle_polygons (adc_s c) (obstacles c)) as [|poly polys].
  - split; [discriminate|]. intros [(o & Ho & Hkeep) _].
    destruct (surviving_obstacles (adc_s c) (obstacles c)) as [|s0 l0] eqn:Es;
      [|discriminate Hpolys].
    assert (Hs : In o (surviving_obstacles (adc_s c) (obstacles c))).
    { apply surviving_obstacles_In. split; assumption. }
    rewrite Es in Hs. contradiction.
  - assert (Hsurv : exists o, In o (obstacles c) /\
                              obstacle_filtered (adc_s c) o = false).
    { destruct (surviving_obstacles (adc_s c) (obstacles c)) as [|s0 l0] eqn:Es;
        [discriminate Hpolys|].
      exists s0. apply surviving_obstacles_In. rewrite Es. left. reflexivity. }
    destruct (history_frame c) as [[|p rest]|].
    + split; [intros _; split; [exact Hsurv | reflexivity] | reflexivity].
    + change (p :: rest) with ([] ++ p :: rest).
      rewrite (back_nonempty [] p rest). simpl.
      split; [discriminate | intros [_ H]; discriminate H].
    + split; [discriminate | intros [_ H]; discriminate H].
Qed.

(** X13. [IsCollisionFree] leaves a vector ([back()] of an empty path)
    exactly when an obstacle survives the filter and the previous frame's
    planned path is empty; in every other case it returns a value. *)
Theorem IsCollisionFree_out_of_range_iff (c : Cycle) :
  IsCollisionFree c = OutOfRange <->
  (exists o, In o (obstacles c) /\ obstacle_filtered (adc_s c) o = false) /\
  history_frame c = Some [].
Proof.
  exact (IsCollisionFree_reads_empty_path c).
Qed.

(** X14. Obstacles the filter drops have no influence: two obstacle lists
    that keep the same obstacles, in the same order, give the same
    result. *)
Theorem IsCollisionFree_filtered_irrelevant (c : Cycle)
        (items : list Obstacle) :
  surviving_obstacles (adc_s c) items
  = surviving_obstacles (adc_s c) (obstacles c) ->
  IsCollisionFree (set_obstacles c items) = IsCollisionFree c.
Proof.
  intro Hsame. unfold IsCollisionFree.
  change (reference_line (set_obstacles c items)) with (reference_line c).
  change (adc_position (set_obstacles c items)) with (adc_position c).
  change (history_frame (set_obstacles c items)) with (history_frame c).
  change (obstacles (set_obstacles c items)) with items.
  fold (GetADCSLPoint c). fold (adc_s c).
  rewrite (obstacle_polygons_surviving (adc_s c) items), Hsame,
    <- (obstacle_polygons_surviving (adc_s c) (obstacles c)).
  destruct (obstacle_polygons (adc_s c) (obstacles c)) as [|poly polys];
    [reflexivity|].
  destruct (history_frame c) as [history_path|]; [|reflexivity].
  destruct (back history_path) as [last_point|]; simpl; [|reflexivity].
  f_equal. generalize (poly :: polys). intro polygons.
  generalize (sl_s (XYToSL_unchecked (reference_line c)
                      (MkVec2d (x last_point) (y last_point)))).
  intro e. induction history_path as [|p rest IH]; simpl; [reflexivity|].
  rewrite IH.
  assert (Hcorners : forall corners,
             corners_pass (set_obstacles c items) polygons corners
             = corners_pass c polygons corners).
  { induction corners as [|k more IHk]; simpl; [reflexivity|].
    rewrite IHk. reflexivity. }
  change (GetAllCorners (set_obstacles c items) p) with (GetAllCorners c p).
  rewrite Hcorners. reflexivity.
Qed.

Lemma IsCollisionFree_filtered_irrelevant_witness :
  IsCollisionFree
    (set_obstacles Samples.parked_car_on_path
                   [Samples.moving_car; Samples.parked_car; Samples.stop_wall])
  = IsCollisionFree Samples.parked_car_on_path.
Proof.
  apply IsCollisionFree_filtered_irrelevant. reflexivity.
Defined.

(* ------------------------------------------------------------------ *)
(** ** What the trimmer keeps *)

Lemma trim_steps_poses (rl : ReferenceLine) (adc : Q)
      (points : list PathPoint) :
  forall v : TrimVars,
    map pose_of (trimmed_path (fold_left (trim_step rl adc) points v))
    = map pose_of (trimmed_path v)
      ++ map pose_of (filter (fun q => negb (behind_adc rl adc q)) points).
Proof.
  induction points as [|p rest IH]; intro v.
  - simpl. rewrite app_nil_r. reflexivity.
  - cbn [fold_left filter]. rewrite IH. unfold trim_step.
    fold (point_sl_s rl p). fold (behind_adc rl adc p).
    destruct (behind_adc rl adc p); simpl.
    + reflexivity.
    + rewrite map_app, <- app_assoc. reflexivity.
Qed.

Lemma filter_split_length {A : Type} (f : A -> bool) (l : list A) :
  (List.length (filter f l)
   + List.length (filter (fun a => negb (f a)) l) = List.length l)%nat.
Proof.
  induction l as [|a l IH]; simpl; [reflexivity|].
  destruct (f a); simpl; lia.
Qed.

(** With a point that is not behind the vehicle the trimmer returns true
    and stores a path. *)
Lemma TrimHistoryPath_returns_true (c : Cycle) (frame : Frame)
      (history_path : DiscretizedPath) (q : PathPoint) :
  history_frame c = Some history_path ->
  In q history_path ->
  adc_s c <= point_sl_s (reference_line c) q ->
  exists trimmed : DiscretizedPath,
    TrimHistoryPath c frame = Ok (true, MkFrame trimmed).
Proof.
  intros Hhist Hq Hahead.
  destruct (TrimHistoryPath c frame) as [[trimmed frame']|] eqn:Etrim.
  - revert Etrim. unfold TrimHistoryPath. rewrite Hhist.
    destruct (at_index _ _) as [anchor|]; simpl; [|discriminate].
    intro H. injection H as <- <-. eexists. reflexivity.
  - exfalso. apply TrimHistoryPath_out_of_range_iff in Etrim.
    destruct Etrim as (hp & Hhp & Hall). rewrite Hhist in Hhp.
    injection Hhp as <-. rewrite Forall_forall in Hall.
    specialize (Hall q Hq). lra.
Qed.

(** X16. When some point of the previous path is not behind the vehicle,
    [TrimHistoryPath] returns true, and the path it stores is an anchor,
    the previous-path point whose index is the number of points behind the
    vehicle, followed by the points that are not behind the vehicle, in
    their order and with position, heading and curvature unchanged; so it
    has one point more than the previous path has points not behind the
    vehicle. *)
Theorem TrimHistoryPath_keeps_poses (c : Cycle) (frame : Frame)
        (history_path : DiscretizedPath) (q : PathPoint) :
  history_frame c = Some history_path ->
  In q history_path ->
  adc_s c <= point_sl_s (reference_line c) q ->
  exists (anchor : PathPoint) (rest : list PathPoint),
    TrimHistoryPath c frame = Ok (true, MkFrame (anchor :: rest)) /\
    nth_error history_path
              (List.length (filter (behind_adc (reference_line c) (adc_s c))
                                   history_path))
    = Some anchor /\
    map pose_of rest
    = map pose_of (filter (fun p => negb (behind_adc (reference_line c)
                                                     (adc_s c) p))
                          history_path) /\
    (List.length (anchor :: rest)
     + List.length (filter (behind_adc (reference_line c) (adc_s c))
                           history_path)
     = S (List.length history_path))%nat.
Proof.
  intros Hhist Hq Hahead.
  destruct (TrimHistoryPath c frame) as [[trimmed frame']|] eqn:Etrim.
  2:{ exfalso. apply TrimHistoryPath_out_of_range_iff in Etrim.
      destruct Etrim as (hp & Hhp & Hall). rewrite Hhist in Hhp.
      injection Hhp as <-. rewrite Forall_forall in Hall.
      specialize (Hall q Hq). lra. }
  revert Etrim. unfold TrimHistoryPath. rewrite Hhist.
  fold (GetADCSLPoint c). fold (adc_s c). unfold trim_loop, at_index.
  rewrite trim_steps_index. cbn [TrimVars_init path_start_index Nat.add].
  destruct (nth_error history_path _) as [anchor|] eqn:Hnth; simpl;
    [|discriminate].
  intro H. injection H as <- <-.
  exists anchor. eexists. split; [reflexivity|]. split; [reflexivity|].
  split.
  - rewrite trim_steps_poses. reflexivity.
  - cbn [List.length]. rewrite <- (length_map pose_of).
    rewrite trim_steps_poses. cbn [TrimVars_init trimmed_path map app].
    rewrite length_map.
    pose proof (filter_split_length
                  (behind_adc (reference_line c) (adc_s c)) history_path).
    lia.
Qed.

Lemma TrimHistoryPath_keeps_poses_witness :
  exists (anchor : PathPoint) (rest : list PathPoint),
    TrimHistoryPath Samples.offset_path Samples.fresh_frame
    = Ok (true, MkFrame (anchor :: rest)) /\
    nth_error Samples.offset_points 2 = Some anchor /\
    map pose_of rest
    = map pose_of [Samples.point_at 120 20; Samples.point_at 130 30] /\
    (List.length (anchor :: rest) + 2 = S 4)%nat.
Proof.
  exact (TrimHistoryPath_keeps_poses
           Samples.offset_path Samples.fresh_frame Samples.offset_points
           (Samples.point_at 120 20) eq_refl
           (or_intror (or_intror (or_introl eq_refl)))
           (fun H : ((115 # 1) ?= (120 # 1)) = Gt =>
              eq_ind Lt (fun o => match o with Gt => False | _ => True end)
                     I Gt H)).
Defined.

(* ------------------------------------------------------------------ *)
(** ** How the gate composes the checker and the trimmer *)

(** X17. A cycle entered with [reused_path] true whose collision check
    accepts, on a previous path with a point that is not behind the
    vehicle: [Process] keeps the flag on, counts the reuse, stores the
    trimmed path [TrimHistoryPath] builds in the frame and reports no
    error. *)
Theorem Process_reuses_path (cfg : PathReuseDeciderConfig) (c : Cycle)
        (frame : Frame) (ctx : Context) (history_path : DiscretizedPath)
        (q : PathPoint) :
  reuse_path cfg = true ->
  reused_path ctx = true ->
  CheckPathReusable c = Ok true ->
  history_frame c = Some history_path ->
  In q history_path ->
  adc_s c <= point_sl_s (reference_line c) q ->
  exists trimmed : DiscretizedPath,
    TrimHistoryPath c frame = Ok (true, MkFrame trimmed) /\
    Process cfg c frame ctx
    = Ok (MkContext true (incr_int (reusable_path_counter_ ctx))
                    (incr_int (total_path_counter_ ctx)),
          MkFrame trimmed,
          [CalledCheckPathReusable; CalledTrimHistoryPath]).
Proof.
  intros Hcfg Hon Hcheck Hhist Hq Hahead.
  destruct (TrimHistoryPath_returns_true c frame history_path q Hhist Hq Hahead)
    as (trimmed & Htrim).
  exists trimmed. split; [exact Htrim|].
  unfold Process. rewrite Hcfg, Hon, Hcheck. simpl. rewrite Htrim. simpl.
  unfold incr_total_path_counter, incr_reusable_path_counter. simpl.
  rewrite Hon. reflexivity.
Qed.

Lemma Process_reuses_path_witness :
  exists trimmed : DiscretizedPath,
    TrimHistoryPath Samples.offset_path Samples.fresh_frame
    = Ok (true, MkFrame trimmed) /\
    Process Samples.enabled Samples.offset_path Samples.fresh_frame
            Samples.reuse_on
    = Ok (MkContext true (incr_int 3) (incr_int 7), MkFrame trimmed,
          [CalledCheckPathReusable; CalledTrimHistoryPath]).
Proof.
  apply (Process_reuses_path
           Samples.enabled Samples.offset_path Samples.fresh_frame
           Samples.reuse_on Samples.offset_points (Samples.point_at 120 20)).
  - reflexivity.
  - reflexivity.
  - reflexivity.
  - reflexivity.
  - right. right. left. reflexivity.
  - discriminate.
Defined.

(** X18. A cycle entered with [reused_path] true, with no obstacle that
    survives the filter and no previous frame: the collision check accepts
    by its early exit, so [Process] counts a reuse and keeps the flag on
    although there is no path to reuse; the trimmer fails, the failure is
    reported and the frame is left as it was. *)
Theorem Process_reuse_without_history (cfg : PathReuseDeciderConfig)
        (c : Cycle) (frame : Frame) (ctx : Context) :
  reuse_path cfg = true ->
  reused_path ctx = true ->
  surviving_obstacles (adc_s c) (obstacles c) = [] ->
  history_frame c = None ->
  Process cfg c frame ctx
  = Ok (MkContext true (incr_int (reusable_path_counter_ ctx))
                  (incr_int (total_path_counter_ ctx)),
        frame,
        [CalledCheckPathReusable; CalledTrimHistoryPath; ReportedFailedToTrim]).
Proof.
  intros Hcfg Hon Hnone Hhist.
  assert (Hcheck : CheckPathReusable c = Ok true).
  { apply IsCollisionFree_no_polygons.
    rewrite obstacle_polygons_surviving, Hnone. reflexivity. }
  unfold Process. rewrite Hcfg, Hon, Hcheck. simpl.
  unfold TrimHistoryPath. rewrite Hhist. simpl.
  unfold incr_total_path_counter, incr_reusable_path_counter. simpl.
  rewrite Hon. reflexivity.
Qed.

Lemma Process_reuse_without_history_witness :
  Process Samples.enabled Samples.filtered_only Samples.fresh_frame
          Samples.reuse_on
  = Ok (MkContext true (incr_int 3) (incr_int 7), Samples.fresh_frame,
        [CalledCheckPathReusable; CalledTrimHistoryPath; ReportedFailedToTrim]).
Proof.
  apply (Process_reuse_without_history
           Samples.enabled Samples.filtered_only Samples.fresh_frame
           Samples.reuse_on); reflexivity.
Defined.

(** X19. [Process] leaves a vector in exactly two situations, both in a
    cycle entered with [reused_path] true and reuse enabled: an obstacle
    survives the filter and the previous path is empty (the check reads
    [back()]); or the check accepts and every point of the previous path
    is behind the vehicle (the trimmer reads its anchor). *)
Theorem Process_out_of_range_iff (cfg : PathReuseDeciderConfig) (c : Cycle)
        (frame : Frame) (ctx : Context) :
  Process cfg c frame ctx = OutOfRange <->
  reuse_path cfg = true /\ reused_path ctx = true /\
  exists history_path : DiscretizedPath,
    history_frame c = Some history_path /\
    ((history_path = [] /\
      exists o, In o (obstacles c) /\ obstacle_filtered (adc_s c) o = false) \/
     (IsCollisionFree c = Ok true /\
      Forall (fun q => point_sl_s (reference_line c) q < adc_s c)
             history_path)).
Proof.
  unfold Process. destruct (reuse_path cfg); simpl.
  2:{ split; [discriminate | intros (H & _); discriminate H]. }
  destruct (reused_path ctx); simpl.
  2:{ split.
      - destruct (_ <? _)%Z; [|destruct (IsIgnoredBlockingObstacle c)];
          discriminate.
      - intros (_ & H & _). discriminate H. }
  unfold CheckPathReusable.
  destruct (IsCollisionFree c) as [[|]|] eqn:Echeck; simpl.
  - destruct (TrimHistoryPath c frame) as [[trimmed frame']|] eqn:Etrim; simpl.
    + split; [discriminate|].
      intros (_ & _ & hp & Hhp & [[Hempty Hsurv] | [_ Hall]]).
      * assert (Hout : IsCollisionFree c = OutOfRange).
        { apply IsCollisionFree_reads_empty_path. subst hp. split; assumption. }
        congruence.
      * assert (Hout : TrimHistoryPath c frame = OutOfRange).
        { apply TrimHistoryPath_out_of_range_iff. exists hp. split; assumption. }
        congruence.
    + split; [|reflexivity]. intros _.
      apply TrimHistoryPath_out_of_range_iff in Etrim.
      destruct Etrim as (hp & Hhp & Hall).
      split; [reflexivity|]. split; [reflexivity|].
      exists hp. split; [exact Hhp|]. right. split; [reflexivity | exact Hall].
  - split; [discriminate|].
    intros (_ & _ & hp & Hhp & [[Hempty Hsurv] | [H _]]); [|discriminate H].
    assert (Hout : IsCollisionFree c = OutOfRange).
    { apply IsCollisionFree_reads_empty_path. subst hp. split; assumption. }
    congruence.
  - split; [|reflexivity]. intros _.
    apply IsCollisionFree_reads_empty_path in Echeck.
    destruct Echeck as [Hsurv Hhist].
    split; [reflexivity|]. split; [reflexivity|].
    exists []. split; [exact Hhist|]. left. split; [reflexivity | exact Hsurv].
Qed.

Lemma run_cycles_total (cfg : PathReuseDeciderConfig)
      (cycles : list (Cycle * Frame)) :
  forall (ctx ctx' : Context) (outs : list (Frame * list Event)),
    (0 <= total_path_counter_ ctx)%Z ->
    (total_path_counter_ ctx + Z.of_nat (List.length cycles) <= INT_MAX)%Z ->
    run_cycles cfg cycles ctx = Ok (ctx', outs) ->
    total_path_counter_ ctx'
    = (total_path_counter_ ctx
       + (if reuse_path cfg then Z.of_nat (List.length cycles) else 0))%Z /\
    List.length outs = List.length cycles.
Proof.
  induction cycles as [|[c frame] rest IH]; intros ctx ctx' outs Hpos Hroom Hrun.
  - simpl in Hrun. injection Hrun as <- <-. simpl.
    split; [destruct (reuse_path cfg); lia | reflexivity].
  - simpl in Hrun.
    destruct (Process cfg c frame ctx) as [[[ctx1 frame1] events]|] eqn:Hstep;
      simpl in Hrun; [|discriminate].
    destruct (run_cycles cfg rest ctx1) as [[ctx2 outs2]|] eqn:Hrest;
      simpl in Hrun; [|discriminate].
    injection Hrun as <- <-.
    destruct (Process_counters_step _ _ _ _ _ _ _ Hstep) as [Htotal _].
    change (List.length ((c, frame) :: rest)) with (S (List.length rest)) in *.
    rewrite Nat2Z.inj_succ in *. unfold INT_MAX in Hroom.
    assert (Ht1 : incr_int (total_path_counter_ ctx)
                  = (total_path_counter_ ctx + 1)%Z).
    { apply incr_int_no_overflow. unfold INT_MIN, INT_MAX. lia. }
    rewrite Ht1 in Htotal.
    destruct (IH ctx1 ctx2 outs2) as [Hcount Hlen];
      [destruct (reuse_path cfg); lia
      |unfold INT_MAX; destruct (reuse_path cfg); lia
      |exact Hrest|].
    split; [|simpl; rewrite Hlen; reflexivity].
    rewrite Hcount, Htotal. destruct (reuse_path cfg); lia.
Qed.

(** X20. Over a run of cycles that starts from counters
    [0 <= reusable <= total] and leaves room below [INT_MAX]:
    [total_path_counter_] grows by the number of cycles when reuse is
    enabled by configuration and not at all when it is disabled,
    [reusable_path_counter_] does not decrease, and
    [reusable_path_counter_ <= total_path_counter_] still holds at the
    end. *)
Theorem run_cycles_counts_cycles (cfg : PathReuseDeciderConfig)
        (cycles : list (Cycle * Frame)) (ctx ctx' : Context)
        (outs : list (Frame * list Event)) :
  (0 <= reusable_path_counter_ ctx <= total_path_counter_ ctx)%Z ->
  (total_path_counter_ ctx + Z.of_nat (List.length cycles) <= INT_MAX)%Z ->
  run_cycles cfg cycles ctx = Ok (ctx', outs) ->
  total_path_counter_ ctx'
  = (total_path_counter_ ctx
     + (if reuse_path cfg then Z.of_nat (List.length cycles) else 0))%Z /\
  (reusable_path_counter_ ctx <= reusable_path_counter_ ctx')%Z /\
  (0 <= reusable_path_counter_ ctx' <= total_path_counter_ ctx')%Z.
Proof.
  intros Hinv Hroom Hrun.
  destruct (run_cycles_counters cfg cycles ctx ctx' outs Hinv Hroom Hrun)
    as (Hr & _ & Hord).
  destruct (run_cycles_total cfg cycles ctx ctx' outs) as [Hcount _];
    [lia | exact Hroom | exact Hrun|].
  split; [exact Hcount|]. split; [exact Hr | exact Hord].
Qed.

Lemma run_cycles_counts_cycles_witness :
  (9 = 7 + Z.of_nat 2)%Z /\ (3 <= 4)%Z /\ (0 <= 4 <= 9)%Z.
Proof.
  assert (Hrun : run_cycles Samples.enabled
                            [(Samples.filtered_only, Samples.fresh_frame);
                             (Samples.parked_car_on_path, Samples.fresh_frame)]
                            Samples.reuse_on
                 = Ok (MkContext false 4 9,
                       [(Samples.fresh_frame,
                         [CalledCheckPathReusable; CalledTrimHistoryPath;
                          ReportedFailedToTrim]);
                        (Samples.fresh_frame, [CalledCheckPathReusable])])).
  { vm_compute. reflexivity. }
  assert (Hinv : (0 <= reusable_path_counter_ Samples.reuse_on
                  <= total_path_counter_ Samples.reuse_on)%Z).
  { simpl. lia. }
  assert (Hroom : (total_path_counter_ Samples.reuse_on
                   + Z.of_nat (List.length
                                 [(Samples.filtered_only, Samples.fresh_frame);
                                  (Samples.parked_car_on_path,
                                   Samples.fresh_frame)])
                   <= INT_MAX)%Z).
  { vm_compute. discriminate. }
  exact (run_cycles_counts_cycles _ _ _ _ _ Hinv Hroom Hrun).
Defined.

(* ------------------------------------------------------------------ *)
(** ** The distance buffer *)

Lemma IsIgnoredBlockingObstacle_true (c : Cycle) :
  IsIgnoredBlockingObstacle c = true <->
  exists blocking : Obstacle,
    Find (obstacles c) (front_static_obstacle_id (path_decider c))
    = Some blocking /\
    std_max 30 (3 * linear_velocity (vehicle_state c))
    < start_s (PerceptionSLBoundary blocking) - adc_s c.
Proof.
  unfold IsIgnoredBlockingObstacle, GetBlockingObstacleS, adc_s, Qgtb.
  destruct (Find (obstacles c) (front_static_obstacle_id (path_decider c)))
    as [blocking|].
  - destruct (Qltb _ _) eqn:E.
    + apply Qltb_lt in E. split; [|reflexivity]. intros _.
      exists blocking. split; [reflexivity | exact E].
    + apply Qltb_ge in E. split; [discriminate|].
      intros (b & Hb & Hlt). injection Hb as <-. exfalso.
      exact (Qlt_not_le _ _ Hlt E).
  - split; [discriminate | intros (b & Hb & _); discriminate Hb].
Qed.

Lemma std_max_bounds (a b : Q) : a <= std_max a b /\ b <= std_max a b.
Proof.
  unfold std_max. destruct (Qltb a b) eqn:E.
  - apply Qltb_lt in E. split; lra.
  - apply Qltb_ge in E. split; lra.
Qed.

Lemma std_max_least (a b m : Q) : a < m -> b < m -> std_max a b < m.
Proof.
  unfold std_max. destruct (Qltb a b); intros; assumption.
Qed.



(** X22. Slowing down never turns an ignored blocking obstacle into one
    that is not ignored: if [IsIgnoredBlockingObstacle] returns true at
    the current speed, it returns true at every lower speed, everything
    else being the same. *)
Theorem IsIgnoredBlockingObstacle_slower (c : Cycle) (speed : Q) :
  IsIgnoredBlockingObstacle c = true ->
  speed <= linear_velocity (vehicle_state c) ->
  IsIgnoredBlockingObstacle (set_linear_velocity c speed) = true.
Proof.
  intros H Hslow.
  apply IsIgnoredBlockingObstacle_true in H.
  destruct H as (blocking & Hfind & Hfar).
  apply IsIgnoredBlockingObstacle_true. exists blocking.
  split; [exact Hfind|].
  change (adc_s (set_linear_velocity c speed)) with (adc_s c).
  change (linear_velocity (vehicle_state (set_linear_velocity c speed)))
    with speed.
  destruct (std_max_bounds 30 (3 * linear_velocity (vehicle_state c)))
    as [H30 H3v].
  apply std_max_least; lra.
Qed.

Lemma IsIgnoredBlockingObstacle_slower_witness :
  IsIgnoredBlockingObstacle (set_linear_velocity Samples.truck_far_ahead 2)
  = true.
Proof.
  apply IsIgnoredBlockingObstacle_slower; [reflexivity | discriminate].
Defined.

(* ------------------------------------------------------------------ *)
(** ** The collision checker and the distance buffer on doubles *)

Section OnDoubles.

Import Binary64.
Local Open Scope float_scope.

(** The filter drops exactly the obstacles of the four kinds, with the
    subtraction and the product as the doubles give them. *)
Lemma obstacle_filtered_binary64 (a : float) (o : Obstacle) :
  obstacle_filtered a o = true <->
  IsStatic o = false \/ IsVirtual o = true \/
  (end_s (PerceptionSLBoundary o) <? a - 0.5) = true \/
  ((end_s (PerceptionSLBoundary o) - start_s (PerceptionSLBoundary o)) *
   (end_l (PerceptionSLBoundary o) - start_l (PerceptionSLBoundary o))
   <? 1e-4) = true.
Proof.
  unfold obstacle_filtered, kSBuffer, kMinObstacleArea.
  destruct (IsStatic o), (IsVirtual o); simpl;
    try (split; [auto | reflexivity]).
  destruct (end_s _ <? _) eqn:E1.
  - split; auto.
  - destruct (_ * _ <? _) eqn:E2.
    + split; auto.
    + split; [discriminate|].
      intros [H | [H | [H | H]]]; discriminate H.
Qed.

Lemma obstacle_polygons_all_filtered_binary64 (a : float)
      (items : list Obstacle) :
  Forall (fun o => obstacle_filtered a o = true) items ->
  obstacle_polygons a items = [].
Proof.
  induction 1 as [|o rest Ho _ IH]; simpl.
  - reflexivity.
  - rewrite Ho. exact IH.
Qed.

Lemma IsCollisionFree_no_polygons_binary64 (c : Cycle) :
  obstacle_polygons (adc_s c) (obstacles c) = [] ->
  IsCollisionFree c = Ok true.
Proof.
  intro Hnone. unfold IsCollisionFree.
  fold (GetADCSLPoint c). fold (adc_s c).
  rewrite Hnone. reflexivity.
Qed.

(** C3. Early-exit equivalence: when every obstacle of the list is
    non-static, or virtual, or has [end_s < adc_s - 0.5], or has a box area
    [(end_s - start_s) * (end_l - start_l) < 1e-4], each computed in double
    arithmetic as the code computes it, [IsCollisionFree] returns true,
    whatever the frame history holds: any previous path, or no previous
    frame at all. *)
Theorem IsCollisionFree_early_exit (c : Cycle) :
  Forall (fun o =>
            IsStatic o = false \/ IsVirtual o = true \/
            (end_s (PerceptionSLBoundary o) <? adc_s c - 0.5) = true \/
            ((end_s (PerceptionSLBoundary o)
              - start_s (PerceptionSLBoundary o)) *
             (end_l (PerceptionSLBoundary o)
              - start_l (PerceptionSLBoundary o)) <? 1e-4) = true)
         (obstacles c) ->
  IsCollisionFree c = Ok true /\
  forall h : option DiscretizedPath,
    IsCollisionFree (set_history_frame c h) = Ok true.
Proof.
  intros Hall.
  assert (Hnone : obstacle_polygons (adc_s c) (obstacles c) = []).
  { apply obstacle_polygons_all_filtered_binary64.
    eapply Forall_impl; [|exact Hall].
    intros o Ho. apply obstacle_filtered_binary64. exact Ho. }
  split.
  - apply IsCollisionFree_no_polygons_binary64. exact Hnone.
  - intro h. apply IsCollisionFree_no_polygons_binary64. exact Hnone.
Qed.

Lemma IsCollisionFree_early_exit_witness :
  IsCollisionFree Binary64.Samples.filtered_only = Ok true /\
  forall h : option DiscretizedPath,
    IsCollisionFree (set_history_frame Binary64.Samples.filtered_only h)
    = Ok true.
Proof.
  apply IsCollisionFree_early_exit.
  apply Forall_cons; [left; reflexivity|].
  apply Forall_cons; [right; left; reflexivity|].
  apply Forall_cons; [right; right; left; reflexivity|].
  apply Forall_cons; [right; right; right; reflexivity|].
  apply Forall_nil.
Defined.

(** At the boundary the rounded difference decides: with the vehicle at
    [s = 0.1] an obstacle that ends at [s = -0.4] is kept, since
    [0.1 - 0.5] rounds to [-0.4], and without a previous frame the result
    is false. *)
Lemma IsCollisionFree_filter_rounding :
  (-0.4 <? adc_s Binary64.Samples.boundary_obstacle - 0.5) = false /\
  IsCollisionFree Binary64.Samples.boundary_obstacle = Ok false.
Proof.
  split; reflexivity.
Qed.



(** At the boundary the rounded difference decides: a blocking obstacle at
    [s = 30.1] seen from [s = 0.1] is [30.1 - 0.1 = 30.0] away in doubles,
    which does not exceed the buffer of 30. *)
Lemma IsIgnoredBlockingObstacle_buffer_rounding :
  (30.1 - adc_s Binary64.Samples.blocker_at_buffer) = 30 /\
  IsIgnoredBlockingObstacle Binary64.Samples.blocker_at_buffer = false.
Proof.
  split; reflexivity.
Qed.

Lemma obstacle_polygons_surviving_binary64 (a : float)
      (items : list Obstacle) :
  obstacle_polygons a items
  = map obstacle_polygon (surviving_obstacles a items).
Proof.
  unfold surviving_obstacles.
  induction items as [|o rest IH]; simpl; [reflexivity|].
  destruct (obstacle_filtered a o); simpl; [exact IH | f_equal; exact IH].
Qed.

Lemma surviving_obstacles_In_binary64 (a : float) (items : list Obstacle)
      (o : Obstacle) :
  In o (surviving_obstacles a items) <->
  In o items /\ obstacle_filtered a o = false.
Proof.
  unfold surviving_obstacles. rewrite filter_In, negb_true_iff. reflexivity.
Qed.

Lemma in_some_polygon_false_binary64 (c : Cycle) (a : float)
      (items : list Obstacle) (pt : Vec2d) :
  in_some_polygon c (obstacle_polygons a items) pt = false <->
  forall o, In o items -> obstacle_filtered a o = false ->
            IsPointIn c (obstacle_polygon o) pt = false.
Proof.
  unfold in_some_polygon. rewrite obstacle_polygons_surviving_binary64. split.
  - intros H o Ho Hkeep.
    destruct (IsPointIn c (obstacle_polygon o) pt) eqn:E; [|reflexivity].
    assert (Hex : existsb (fun poly => IsPointIn c poly pt)
                          (map obstacle_polygon (surviving_obstacles a items))
                  = true).
    { apply existsb_exists. exists (obstacle_polygon o).
      split; [|exact E]. apply in_map. apply surviving_obstacles_In_binary64.
      split; assumption. }
    congruence.
  - intro H.
    destruct (existsb _ _) eqn:E; [|reflexivity].
    apply existsb_exists in E. destruct E as (poly & Hpoly & Hin).
    apply in_map_iff in Hpoly. destruct Hpoly as (o & <- & Ho).
    apply surviving_obstacles_In_binary64 in Ho. destruct Ho as [Ho Hkeep].
    rewrite (H o Ho Hkeep) in Hin. discriminate Hin.
Qed.

Lemma corners_pass_true_binary64 (c : Cycle) (polygons : list Polygon2d)
      (corners : list Vec2d) :
  corners_pass c polygons corners = true <->
  Forall (fun corner =>
            fst (XYToSL (reference_line c) corner) = true /\
            in_some_polygon c polygons
                            (projected_corner (reference_line c) corner)
            = false)
         corners.
Proof.
  induction corners as [|k rest IH]; simpl.
  - split; [constructor | reflexivity].
  - destruct (XYToSL (reference_line c) k) as [ok sl] eqn:Hx.
    assert (Hproj : projected_corner (reference_line c) k
                    = MkVec2d (sl_s sl) (sl_l sl)).
    { unfold projected_corner, XYToSL_unchecked. rewrite Hx. reflexivity. }
    destruct ok; simpl.
    + destruct (in_some_polygon c polygons (MkVec2d (sl_s sl) (sl_l sl))) eqn:E.
      * split; [discriminate|]. intro H. inversion H as [|? ? [_ Hk] _]; subst.
        rewrite Hproj in Hk. congruence.
      * rewrite IH. split.
        -- intro H. constructor; [|exact H].
           split; [rewrite Hx; reflexivity | rewrite Hproj; exact E].
        -- intro H. inversion H; subst. assumption.
    + split; [discriminate|]. intro H. inversion H as [|? ? [Hk _] _]; subst.
      rewrite Hx in Hk. discriminate Hk.
Qed.

Lemma scan_history_path_true_binary64 (c : Cycle) (polygons : list Polygon2d)
      (a e : float) (points : list PathPoint) :
  scan_history_path c polygons a e points = true <->
  Forall (fun pose => corners_pass c polygons (GetAllCorners c pose) = true)
         (sampled_poses (reference_line c) a e points).
Proof.
  induction points as [|p rest IH]; simpl.
  - split; [constructor | reflexivity].
  - fold (point_sl_s (reference_line c) p).
    destruct (e - point_sl_s (reference_line c) p <? _).
    + split; [constructor | reflexivity].
    + destruct (point_sl_s (reference_line c) p <? a - kSBuffer).
      * exact IH.
      * destruct (corners_pass c polygons (GetAllCorners c p)) eqn:E.
        -- rewrite IH. split.
           ++ intro H. constructor; assumption.
           ++ intro H. inversion H; subst. assumption.
        -- split; [discriminate|]. intro H. inversion H; subst. congruence.
Qed.

(** X11. [IsCollisionFree] returns true exactly in two cases: no obstacle
    survives the filter; or an obstacle survives, the previous path exists
    and is not empty, and at every sampled pose every bounding-box corner
    projects onto the reference line and lies in the polygon of no
    surviving obstacle.  The sampled poses are those the scan reaches with
    its tests computed in double arithmetic. *)
Theorem IsCollisionFree_true_iff (c : Cycle) :
  IsCollisionFree c = Ok true <->
  surviving_obstacles (adc_s c) (obstacles c) = [] \/
  (surviving_obstacles (adc_s c) (obstacles c) <> [] /\
   exists (history_path : DiscretizedPath) (last_point : PathPoint),
     history_frame c = Some history_path /\
     back history_path = Ok last_point /\
     Forall (fun pose =>
               Forall (fun corner =>
                         fst (XYToSL (reference_line c) corner) = true /\
                         forall o, In o (obstacles c) ->
                                   obstacle_filtered (adc_s c) o = false ->
                                   IsPointIn c (obstacle_polygon o)
                                             (projected_corner (reference_line c)
                                                               corner)
                                   = false)
                      (GetAllCorners c pose))
            (sampled_poses (reference_line c) (adc_s c)
                           (point_sl_s (reference_line c) last_point)
                           history_path)).
Proof.
  assert (Hpose : forall pose,
             corners_pass c (obstacle_polygons (adc_s c) (obstacles c))
                          (GetAllCorners c pose) = true <->
             Forall (fun corner =>
                       fst (XYToSL (reference_line c) corner) = true /\
                       forall o, In o (obstacles c) ->
                                 obstacle_filtered (adc_s c) o = false ->
                                 IsPointIn c (obstacle_polygon o)
                                           (projected_corner (reference_line c)
                                                             corner)
                                 = false)
                    (GetAllCorners c pose)).
  { intro pose. rewrite corners_pass_true_binary64. rewrite !Forall_forall.
    split; intros H corner Hcorner; destruct (H corner Hcorner) as [H1 H2];
      (split; [exact H1|]); apply in_some_polygon_false_binary64; exact H2. }
  unfold IsCollisionFree. fold (GetADCSLPoint c). fold (adc_s c).
  pose proof (obstacle_polygons_surviving_binary64 (adc_s c) (obstacles c))
    as Hpolys.
  destruct (obstacle_polygons (adc_s c) (obstacles c)) as [|poly polys] eqn:Ep.
  - destruct (surviving_obstacles (adc_s c) (obstacles c)); [|discriminate].
    split; [left; reflexivity | reflexivity].
  - assert (Hne : surviving_obstacles (adc_s c) (obstacles c) <> []).
    { intro H. rewrite H in Hpolys. discriminate Hpolys. }
    destruct (history_frame c) as [history_path|].
    + destruct (back history_path) as [last_point|] eqn:Eb; simpl.
      * change (sl_s (XYToSL_unchecked (reference_line c)
                        (MkVec2d (x last_point) (y last_point))))
          with (point_sl_s (reference_line c) last_point).
        split.
        -- intro H. injection H as H. right. split; [exact Hne|].
           exists history_path, last_point.
           split; [reflexivity|]. split; [exact Eb|].
           apply scan_history_path_true_binary64 in H.
           eapply Forall_impl; [|exact H]. intros pose Hp.
           apply Hpose. exact Hp.
        -- intros [H | (_ & hp & lp & Hhp & Hlp & Hall)]; [contradiction|].
           injection Hhp as <-. rewrite Eb in Hlp. injection Hlp as <-.
           f_equal. apply scan_history_path_true_binary64.
           eapply Forall_impl; [|exact Hall]. intros pose Hp.
           apply Hpose. exact Hp.
      * split; [discriminate|].
        intros [H | (_ & hp & lp & Hhp & Hlp & _)]; [contradiction|].
        injection Hhp as <-. rewrite Eb in Hlp. discriminate Hlp.
    + split; [discriminate|].
      intros [H | (_ & hp & lp & Hhp & _)]; [contradiction | discriminate Hhp].
Qed.

(** X15. The tail reserve takes precedence over every obstacle: when the
    curvilinear [s] of the last point of the previous path minus that of
    its first point, as the doubles give it, is less than 10, the scan
    stops at once and [IsCollisionFree] returns true. *)
Theorem IsCollisionFree_short_path (c : Cycle) (p : PathPoint)
        (rest : list PathPoint) :
  history_frame c = Some (p :: rest) ->
  (point_sl_s (reference_line c) (last (p :: rest) p)
   - point_sl_s (reference_line c) p <? 10) = true ->
  IsCollisionFree c = Ok true.
Proof.
  intros Hhist Hshort. unfold IsCollisionFree.
  destruct (obstacle_polygons _ _) as [|poly polys]; [reflexivity|].
  rewrite Hhist. change (back (p :: rest)) with (back ([] ++ p :: rest)).
  rewrite (back_nonempty [] p rest).
  change ([] ++ p :: rest) with (p :: rest).
  unfold bind. f_equal. cbn [scan_history_path].
  change (kNumExtraTailBoundPoint * kPathBoundsDeciderResolution) with 10.
  unfold point_sl_s in Hshort. rewrite Hshort. reflexivity.
Qed.

Lemma IsCollisionFree_short_path_witness :
  IsCollisionFree Binary64.Samples.six_metre_path = Ok true.
Proof.
  apply (IsCollisionFree_short_path
           Binary64.Samples.six_metre_path
           (Binary64.Samples.point_at 0 0) [Binary64.Samples.point_at 6 6]).
  - reflexivity.
  - reflexivity.
Defined.

(** The reserve is measured on the rounded difference: points at
    [s = 0.1] and [s = 10.1] are [10.0] apart in doubles, so the scan does
    not stop, samples the first pose and finds its corner in the
    obstacle. *)
Lemma IsCollisionFree_reserve_rounding :
  (10.1 - 0.1 <? 10) = false /\
  sampled_poses (reference_line Binary64.Samples.ten_metre_path)
                (adc_s Binary64.Samples.ten_metre_path) 10.1
                [Binary64.Samples.point_at 0.1 0;
                 Binary64.Samples.point_at 10.1 10]
  = [Binary64.Samples.point_at 0.1 0] /\
  IsCollisionFree Binary64.Samples.ten_metre_path = Ok false.
Proof.
  repeat split; reflexivity.
Qed.

End OnDoubles.
